(** * rBUM header date-stamper ([Scripts/update_file_dates.py]) and
    manifest inspection ([Scripts/file_inspection.py])

    A shallow embedding of the two scripts and the properties of the
    renderers, of [process_file] and [main], and of the inspection.

    Python text ([str]) is a sequence of code points: a character is an [N],
    a text a [list N].  The regular expressions of the scripts are values of
    a small pattern type run by a backtracking matcher with the priorities
    of the [re] module.  A renderer that raises yields [None].  Paths lead
    to files through a map of names, so that two paths can lead to one file;
    the effects of [process_file] and [main] are threaded through a state
    and exception monad over the names, the files and the standard
    output. *)

From Stdlib Require Import NArith Ascii String DecimalString DecimalPos DecimalN.
From stdpp Require Import gmap list sorting.

Local Open Scope N_scope.
Local Open Scope list_scope.

(** ** Text *)

Module Text.

Abbreviation char := N (only parsing).
Abbreviation str := (list N) (only parsing).

(** A literal of the source, character by character. *)
Definition txt (s : string) : str :=
  List.map N_of_ascii (list_ascii_of_string s).

Definition nl : char := 10.
Definition backslash : char := 92.

(** [s == t] on texts. *)
Definition str_eqb (s t : str) : bool := bool_decide (s = t).

(** [s.startswith(p)] *)
Fixpoint startswith (p s : str) : bool :=
  match p, s with
  | [], _ => true
  | a :: p', b :: s' => (a =? b) && startswith p' s'
  | _ :: _, [] => false
  end.

(** [s.endswith(p)] *)
Definition endswith (p s : str) : bool :=
  startswith (rev p) (rev s).

(** [s] without the prefix [p], when it starts with it. *)
Fixpoint strip_prefix (p s : str) : option str :=
  match p, s with
  | [], _ => Some s
  | a :: p', b :: s' => if a =? b then strip_prefix p' s' else None
  | _ :: _, [] => None
  end.

(** [p in s] *)
Fixpoint contains (p s : str) : bool :=
  startswith p s || match s with [] => false | _ :: s' => contains p s' end.

(** [s.split('\n')]: never empty, [''.split('\n') == ['']]. *)
Fixpoint split_lines (s : str) : list str :=
  match s with
  | [] => [[]]
  | c :: s' =>
      if c =? nl then [] :: split_lines s'
      else match split_lines s' with
           | l :: ls => (c :: l) :: ls
           | [] => [[c]]
           end
  end.

(** ['\n'.join(ls)] *)
Fixpoint join_lines (ls : list str) : str :=
  match ls with
  | [] => []
  | [l] => l
  | l :: ls' => l ++ nl :: join_lines ls'
  end.

(** [c.isspace()], which is also the class [\s] of a [str] pattern. *)
Definition isspace (c : char) : bool :=
  ((9 <=? c) && (c <=? 13)) || ((28 <=? c) && (c <=? 32))
  || (c =? 133) || (c =? 160) || (c =? 5760)
  || ((8192 <=? c) && (c <=? 8202))
  || (c =? 8232) || (c =? 8233) || (c =? 8239) || (c =? 8287) || (c =? 12288).

Fixpoint lstrip (s : str) : str :=
  match s with
  | c :: s' => if isspace c then lstrip s' else s
  | [] => []
  end.

(** [s.strip()] *)
Definition strip (s : str) : str := rev (lstrip (rev (lstrip s))).

(** Truth value of a text: non-empty. *)
Definition truthy (s : str) : bool :=
  match s with [] => false | _ :: _ => true end.

(** First code point of each run of ten decimal digits (category Nd) of the
    Unicode 15.0 database, the one of Python 3.12: the class [\d] of a [str]
    pattern, and the digits [int] reads. *)
Definition decimal_runs : list N :=
  [48; 1632; 1776; 1984; 2406; 2534; 2662; 2790; 2918; 3046; 3174; 3302;
   3430; 3558; 3664; 3792; 3872; 4160; 4240; 6112; 6160; 6470; 6608; 6784;
   6800; 6992; 7088; 7232; 7248; 42528; 43216; 43264; 43472; 43504; 43600;
   44016; 65296; 66720; 68912; 69734; 69872; 69942; 70096; 70384; 70736;
   70864; 71248; 71360; 71472; 71904; 72016; 72784; 73040; 73120; 73552;
   92768; 92864; 93008; 120782; 120792; 120802; 120812; 120822; 123200;
   123632; 124144; 125264; 130032].

Definition digit_value (c : char) : option N :=
  match List.find (fun z => (z <=? c) && (c <? z + 10)) decimal_runs with
  | Some z => Some (c - z)
  | None => None
  end.

Definition isdecimal (c : char) : bool :=
  match digit_value c with Some _ => true | None => false end.

(** The number a text of decimal digits stands for. *)
Definition int_of_digits (s : str) : N :=
  fold_left (fun acc c => 10 * acc + default 0 (digit_value c)) s 0.

(** The interpreter's limit on the conversions between integers and decimal
    text ([sys.get_int_max_str_digits()], 4300 unless the run is told
    otherwise). *)
Definition max_str_digits : nat := 4300%nat.

(** [int(s)] for a text of decimal digits; [None] is the [ValueError] of a
    text with more digits than the limit. *)
Definition int_of_text (s : str) : option N :=
  if (length s <=? max_str_digits)%nat then Some (int_of_digits s) else None.

Fixpoint uint_chars (d : Decimal.uint) : str :=
  match d with
  | Decimal.Nil => []
  | Decimal.D0 d => 48 :: uint_chars d
  | Decimal.D1 d => 49 :: uint_chars d
  | Decimal.D2 d => 50 :: uint_chars d
  | Decimal.D3 d => 51 :: uint_chars d
  | Decimal.D4 d => 52 :: uint_chars d
  | Decimal.D5 d => 53 :: uint_chars d
  | Decimal.D6 d => 54 :: uint_chars d
  | Decimal.D7 d => 55 :: uint_chars d
  | Decimal.D8 d => 56 :: uint_chars d
  | Decimal.D9 d => 57 :: uint_chars d
  end.

(** The decimal digits of a natural number. *)
Definition decimal (n : N) : str := uint_chars (N.to_uint n).

(** [str(n)], which is also what an f-string makes of [n]; [None] is the
    [ValueError] of a number with more digits than the limit. *)
Definition text_of_int (n : N) : option str :=
  if (length (decimal n) <=? max_str_digits)%nat then Some (decimal n) else None.

(** What reading in text mode makes of the line ends: a carriage return,
    with the newline after it if there is one, becomes a newline. *)
Fixpoint universal_newlines (s : str) : str :=
  match s with
  | [] => []
  | c :: s' =>
      if c =? 13 then
        match s' with
        | d :: s'' =>
            if d =? nl then nl :: universal_newlines s''
            else nl :: universal_newlines s'
        | [] => [nl]
        end
      else c :: universal_newlines s'
  end.

(** A lone surrogate cannot be encoded as UTF-8. *)
Definition is_surrogate (c : char) : bool := (55296 <=? c) && (c <=? 57343).

Definition encodable (s : str) : bool := forallb (fun c => negb (is_surrogate c)) s.

End Text.

Import Text.

(** ** Regular expressions

    The patterns of the script use literals, the classes [.], [\s] and [\d],
    the lazy star and the greedy plus of a class, a greedy optional part and
    one capturing group.  The matcher tries the alternatives in the order of
    [re]'s backtracking engine and hands the rest of the input to its
    continuation, so the first success is the match [re] reports. *)

Module Re.

Inductive regex :=
| Lit (s : str)                    (* literal text *)
| Class (p : char -> bool)         (* one character of a class *)
| LazyStar (p : char -> bool)      (* c*? *)
| Plus (p : char -> bool)          (* c+ *)
| Opt (r : regex)                  (* r? *)
| Group (i : nat) (r : regex)      (* (r), the i-th capturing group *)
| Cat (r1 r2 : regex).             (* r1 r2 *)

(** [.] without DOTALL. *)
Definition dot (c : char) : bool := negb (c =? nl).

(** Captured groups, most recent first. *)
Definition captures := list (nat * str).

Fixpoint group_of (i : nat) (cs : captures) : option str :=
  match cs with
  | [] => None
  | (j, s) :: cs' => if Nat.eqb i j then Some s else group_of i cs'
  end.

Fixpoint count_groups (r : regex) : nat :=
  match r with
  | Opt r => count_groups r
  | Group _ r => S (count_groups r)
  | Cat r1 r2 => count_groups r1 + count_groups r2
  | _ => 0%nat
  end.

Section Matcher.
Context {A : Type}.

Fixpoint lazy_star (p : char -> bool) (s : str) (k : str -> option A) : option A :=
  match k s with
  | Some x => Some x
  | None =>
      match s with
      | c :: s' => if p c then lazy_star p s' k else None
      | [] => None
      end
  end.

Fixpoint greedy_star (p : char -> bool) (s : str) (k : str -> option A) : option A :=
  match s with
  | c :: s' =>
      if p c then
        match greedy_star p s' k with
        | Some x => Some x
        | None => k s
        end
      else k s
  | [] => k s
  end.

Fixpoint mtch (r : regex) (s : str) (cs : captures)
    (k : str -> captures -> option A) : option A :=
  match r with
  | Lit l =>
      match strip_prefix l s with
      | Some s' => k s' cs
      | None => None
      end
  | Class p =>
      match s with
      | c :: s' => if p c then k s' cs else None
      | [] => None
      end
  | LazyStar p => lazy_star p s (fun s' => k s' cs)
  | Plus p =>
      match s with
      | c :: s' => if p c then greedy_star p s' (fun s'' => k s'' cs) else None
      | [] => None
      end
  | Opt r' =>
      match mtch r' s cs k with
      | Some x => Some x
      | None => k s cs
      end
  | Group i r' =>
      mtch r' s cs
        (fun s' cs' => k s' ((i, take (length s - length s') s) :: cs'))
  | Cat r1 r2 => mtch r1 s cs (fun s' cs' => mtch r2 s' cs' k)
  end.
End Matcher.

(** A match at the head of [s]: the text left after it and the groups.
    With [advance] an empty match is refused. *)
Definition match_here (advance : bool) (r : regex) (s : str) : option (str * captures) :=
  mtch r s []
    (fun s' cs =>
       if advance && (length s <=? length s')%nat then None else Some (s', cs)).

(** [re.match(r, s)] *)
Definition re_match (r : regex) (s : str) : option (str * captures) :=
  match_here false r s.

(** The text a match at the head of [s] covers. *)
Definition matched (s rest : str) : str := take (length s - length rest) s.

(** [re.search(r, s)]: start of the leftmost match, the text it covers and
    the groups. *)
Fixpoint re_search_from (r : regex) (s : str) (i : nat) : option (nat * str * captures) :=
  match re_match r s with
  | Some (rest, cs) => Some (i, matched s rest, cs)
  | None =>
      match s with
      | _ :: s' => re_search_from r s' (S i)
      | [] => None
      end
  end.

Definition re_search (r : regex) (s : str) : option (nat * str * captures) :=
  re_search_from r s 0.

(** *** Replacement templates

    A replacement text is a template: [re.sub] processes its backslash
    escapes.  [\g<n>] and [\n] name groups, [\0], [\0o], [\0oo] and [\ooo]
    are octal escapes, [\a \b \f \n \r \t \v \\] are the usual characters,
    another ASCII letter after a backslash is an error and any other
    escaped character stays as it is, backslash included.  Group numbers
    are sequences of ASCII digits (the rule of Python 3.12; earlier
    versions also took signs, blanks and underscores, with a warning). *)

Inductive titem :=
| TChar (c : char)
| TGroup (i : nat).

Definition is_octal (c : char) : bool := (48 <=? c) && (c <=? 55).
Definition is_digit (c : char) : bool := (48 <=? c) && (c <=? 57).
Definition is_ascii_letter (c : char) : bool :=
  ((65 <=? c) && (c <=? 90)) || ((97 <=? c) && (c <=? 122)).

Definition ascii_number (s : str) : N :=
  fold_left (fun acc c => 10 * acc + (c - 48)) s 0.

Definition octal_number (s : str) : N :=
  fold_left (fun acc c => 8 * acc + (c - 48)) s 0.

(** The characters of the table [ESCAPES]. *)
Definition escape_char (c : char) : option char :=
  if c =? 97 then Some 7          (* \a *)
  else if c =? 98 then Some 8     (* \b *)
  else if c =? 102 then Some 12   (* \f *)
  else if c =? 110 then Some 10   (* \n *)
  else if c =? 114 then Some 13   (* \r *)
  else if c =? 116 then Some 9    (* \t *)
  else if c =? 118 then Some 11   (* \v *)
  else if c =? 92 then Some 92    (* \\ *)
  else None.

(** The name between [<] and [>], and the text after [>]. *)
Fixpoint until_gt (s : str) : option (str * str) :=
  match s with
  | [] => None
  | c :: s' =>
      if c =? 62 then Some ([], s')
      else match until_gt s' with
           | Some (name, rest) => Some (c :: name, rest)
           | None => None
           end
  end.

(** A reference to group [i] of a pattern with [groups] groups. *)
Definition group_ref (groups : nat) (i : N) : option titem :=
  if (i <=? N.of_nat groups) then Some (TGroup (N.to_nat i)) else None.

(** [parse_template]: [None] when [re.error] (or [IndexError]) is raised.
    The fuel bounds the number of items, one per loop of the parser. *)
Fixpoint parse_template (fuel : nat) (groups : nat) (t : str) : option (list titem) :=
  match fuel with
  | O => match t with [] => Some [] | _ => None end
  | S fuel' =>
      let continue (it : list titem) (rest : str) :=
        match parse_template fuel' groups rest with
        | Some its => Some (it ++ its)
        | None => None
        end in
      match t with
      | [] => Some []
      | c :: t1 =>
          if negb (c =? backslash) then continue [TChar c] t1
          else
            match t1 with
            | [] => None                                 (* bad escape (end of pattern) *)
            | e :: t2 =>
                if e =? 103 then                           (* \g<name> *)
                  match t2 with
                  | lt :: t3 =>
                      if lt =? 60 then
                        match until_gt t3 with
                        | Some (name, rest) =>
                            if truthy name && forallb is_digit name then
                              match group_ref groups (ascii_number name) with
                              | Some it => continue [it] rest
                              | None => None
                              end
                            else None
                        | None => None
                        end
                      else None
                  | [] => None
                  end
                else if e =? 48 then                       (* \0, \0o, \0oo *)
                  match t2 with
                  | o1 :: t3 =>
                      if is_octal o1 then
                        match t3 with
                        | o2 :: t4 =>
                            if is_octal o2
                            then continue [TChar (N.land (octal_number [o1; o2]) 255)] t4
                            else continue [TChar (octal_number [o1])] t3
                        | [] => continue [TChar (octal_number [o1])] t3
                        end
                      else continue [TChar 0] t2
                  | [] => continue [TChar 0] t2
                  end
                else if is_digit e then                    (* \ooo or a group *)
                  match t2 with
                  | d2 :: t3 =>
                      if is_digit d2 then
                        match t3 with
                        | d3 :: t4 =>
                            if is_octal e && is_octal d2 && is_octal d3 then
                              let c := octal_number [e; d2; d3] in
                              if 255 <? c then None else continue [TChar c] t4
                            else
                              match group_ref groups (ascii_number [e; d2]) with
                              | Some it => continue [it] t3
                              | None => None
                              end
                        | [] =>
                            match group_ref groups (ascii_number [e; d2]) with
                            | Some it => continue [it] t3
                            | None => None
                            end
                        end
                      else
                        match group_ref groups (ascii_number [e]) with
                        | Some it => continue [it] t2
                        | None => None
                        end
                  | [] =>
                      match group_ref groups (ascii_number [e]) with
                      | Some it => continue [it] t2
                      | None => None
                      end
                  end
                else
                  match escape_char e with
                  | Some x => continue [TChar x] t2
                  | None =>
                      if is_ascii_letter e then None       (* bad escape *)
                      else continue [TChar backslash; TChar e] t2
                  end
            end
      end
  end.

(** The text a template stands for at one match; a group that took no part
    in the match is the empty text. *)
Definition expand_item (whole : str) (cs : captures) (it : titem) : str :=
  match it with
  | TChar c => [c]
  | TGroup O => whole
  | TGroup i => default [] (group_of i cs)
  end.

Definition expand (tpl : list titem) (whole : str) (cs : captures) : str :=
  concat (List.map (expand_item whole cs) tpl).

(** The loop of [re.sub] with a parsed template.  [skip] counts the
    characters of the input still covered by the last match.  After an
    empty match the search goes on at the same place for a match that is
    not empty. *)
Fixpoint subx (r : regex) (tpl : list titem) (s : str) (skip : nat) : str :=
  match skip, s with
  | S n, _ :: s' => subx r tpl s' n
  | S _, [] => []
  | O, _ =>
      let copy := match s with c :: s' => c :: subx r tpl s' 0 | [] => [] end in
      let replace (rest : str) (cs : captures) :=
        expand tpl (matched s rest) cs
          ++ match s with
             | _ :: s' => subx r tpl s' (length (matched s rest) - 1)
             | [] => []
             end in
      match match_here false r s with
      | Some (rest, cs) =>
          if (length s <=? length rest)%nat then
            expand tpl [] cs
              ++ match match_here true r s with
                 | Some (rest', cs') => replace rest' cs'
                 | None => copy
                 end
          else replace rest cs
      | None => copy
      end
  end.

(** [re.sub(r, repl, s)]; [None] when the template is refused. *)
Definition re_sub (r : regex) (repl : str) (s : str) : option str :=
  match parse_template (S (length repl)) (count_groups r) repl with
  | Some tpl => Some (subx r tpl s 0)
  | None => None
  end.

End Re.

Import Re.

(** ** Dates

    [datetime.datetime.now().strftime("%-d %B %Y")]: the day of the month
    without padding, the full English month name and the year. *)

Inductive month :=
| January | February | March | April | May | June
| July | August | September | October | November | December.

Record date := mk_date { day : N; mon : month; year : N }.

Definition month_name (m : month) : str :=
  match m with
  | January => txt "January" | February => txt "February"
  | March => txt "March" | April => txt "April"
  | May => txt "May" | June => txt "June"
  | July => txt "July" | August => txt "August"
  | September => txt "September" | October => txt "October"
  | November => txt "November" | December => txt "December"
  end.

Definition strftime_dBY (d : date) : str :=
  decimal (day d) ++ txt " " ++ month_name (mon d) ++ txt " " ++ decimal (year d).

(** ** The renderers *)

Definition CREATION_DATE : str := txt "6 February 2025".

(** [r"//\n//.*?\n//.*?\n//\n"] *)
Definition header_pattern : regex :=
  Cat (Lit (txt "//" ++ [nl] ++ txt "//"))
   (Cat (LazyStar dot)
    (Cat (Lit ([nl] ++ txt "//"))
     (Cat (LazyStar dot)
          (Lit ([nl] ++ txt "//" ++ [nl]))))).

(** [r"Update count: (\d+)"] *)
Definition count_pattern : regex :=
  Cat (Lit (txt "Update count: ")) (Group 1 (Plus isdecimal)).

(** [r"First created:.*?\n.*?Last updated:.*?\n(Update count:.*?\n)?\n?"] *)
Definition dates_pattern : regex :=
  Cat (Lit (txt "First created:"))
   (Cat (LazyStar dot)
    (Cat (Lit [nl])
     (Cat (LazyStar dot)
      (Cat (Lit (txt "Last updated:"))
       (Cat (LazyStar dot)
        (Cat (Lit [nl])
         (Cat (Opt (Group 1 (Cat (Lit (txt "Update count:"))
                             (Cat (LazyStar dot) (Lit [nl])))))
              (Opt (Lit [nl]))))))))).

(** [r"\n##\s+"] *)
Definition section_pattern : regex :=
  Cat (Lit ([nl] ++ txt "##")) (Plus isspace).

(** The first loop of [update_markdown_file]: one past the index of the
    first line that starts with ['# '], [0] when there is none. *)
Fixpoint find_title (lines : list str) (i : nat) : nat :=
  match lines with
  | [] => 0%nat
  | line :: lines' =>
      if startswith (txt "# ") line then S i else find_title lines' (S i)
  end.

(** The second loop, over [lines[i:]]: the index one past the last line kept
    as description. *)
Fixpoint scan_description (lines : list str) (i desc_end : nat) : nat :=
  match lines with
  | [] => desc_end
  | line :: lines' =>
      if truthy (strip line) && negb (startswith (txt "First created:") line)
      then scan_description lines' (S i) (S i)
      else if negb (truthy (strip line))
      then scan_description lines' (S i) desc_end            (* continue *)
      else desc_end                                          (* break *)
  end.

Section Stamper.

(** The two globals that vary: the feature flag and the day of the run. *)
Variable COUNTER_ENABLED : bool.
Variable today : date.

Definition CURRENT_DATE : str := strftime_dBY today.

(** The outer [None] is the [ValueError] of [int]; inside, [None] is
    Python's [None]. *)
Definition get_update_count (content : str) : option (option N) :=
  if negb COUNTER_ENABLED then Some None
  else
    match re_search count_pattern content with
    | Some (_, _, cs) =>
        n ← int_of_text (default [] (group_of 1 cs)); Some (Some (n + 1))
    | None => Some (Some 1)
    end.

(** [f"{x}"] for the result of [get_update_count]; [None] is the
    [ValueError] of the conversion to text. *)
Definition format_count (x : option N) : option str :=
  match x with
  | Some n => text_of_int n
  | None => Some (txt "None")
  end.

(** [counter_str] of [update_swift_file]: the f-string is evaluated, and
    [get_update_count] called, only with the flag on. *)
Definition swift_counter_str (content : str) : option str :=
  if COUNTER_ENABLED
  then x ← get_update_count content; count ← format_count x;
       Some (txt "//  Update count: " ++ count ++ [nl])
  else Some [].

(** The f-string of [new_header], for a counter text. *)
Definition header_block (counter_str name : str) : str :=
  txt "//" ++ [nl]
  ++ txt "//  " ++ name ++ [nl]
  ++ txt "//  rBUM" ++ [nl]
  ++ txt "//" ++ [nl]
  ++ txt "//  First created: " ++ CREATION_DATE ++ [nl]
  ++ txt "//  Last updated: " ++ CURRENT_DATE ++ [nl]
  ++ counter_str ++ txt "//" ++ [nl].

(** [update_swift_file(content, file_path)], with [name] for
    [file_path.name]; [None] when the call raises: the [ValueError] of the
    counter text, or the [re.error] of [re.sub]. *)
Definition update_swift_file (content name : str) : option str :=
  counter_str ← swift_counter_str content;
  let new_header := header_block counter_str name in
  match re_match header_pattern content with
  | Some _ => re_sub header_pattern new_header content
  | None => Some (new_header ++ content)
  end.

(** [counter_str] of [update_markdown_file]. *)
Definition md_counter_str (content : str) : option str :=
  if COUNTER_ENABLED
  then x ← get_update_count content; count ← format_count x;
       Some (txt "Update count: " ++ count ++ [nl])
  else Some [].

(** The f-string of [date_section], for a counter text. *)
Definition date_block (counter_str : str) : str :=
  txt "First created: " ++ CREATION_DATE ++ [nl]
  ++ txt "Last updated: " ++ CURRENT_DATE ++ [nl]
  ++ counter_str ++ [nl].

(** [header] of [update_markdown_file]. *)
Definition md_header (content : str) : str :=
  let lines := split_lines content in
  let title_end := find_title lines 0 in
  let desc_end := scan_description (drop title_end lines) title_end title_end in
  let header := join_lines (take desc_end lines) in
  if truthy header then header ++ [nl; nl] else header.

(** [update_markdown_file(content, file_path)]; [None] when the call
    raises, which only the counter text can do: the replacement of its
    [re.sub] is empty. *)
Definition update_markdown_file (content name : str) : option str :=
  let header := md_header content in
  counter_str ← md_counter_str content;
  let date_section := date_block counter_str in
  match re_sub dates_pattern [] content with
  | None => None
  | Some content' =>
      match re_search section_pattern (drop (length header) content') with
      | Some (start, _, _) =>
          let insert_pos := (length header + start)%nat in
          Some (take insert_pos content' ++ date_section ++ drop insert_pos content')
      | None =>
          Some (header ++ date_section ++ drop (length header) content')
      end
  end.

(** The value of [new_header] in a call of [update_swift_file], and of
    [date_section] in a call of [update_markdown_file], as functions of the
    content; where the counter text raises, the call raises before either
    is built, and these are the blocks without counter line. *)
Definition new_header (content name : str) : str :=
  header_block (default [] (swift_counter_str content)) name.

Definition date_section (content : str) : str :=
  date_block (default [] (md_counter_str content)).

End Stamper.

(** ** Paths

    A path is the tuple [file_path.parts]; an absolute path starts with the
    part ["/"]. *)

Abbreviation path := (list (list N)) (only parsing).

(** [file_path.name] *)
Definition path_name (p : path) : str :=
  match p with
  | [] => []
  | [a] => if str_eqb a (txt "/") then [] else a
  | _ => default [] (last p)
  end.

(** [s.rfind(c)], counted from [i]. *)
Fixpoint rfind (c : char) (s : str) (i : nat) : option nat :=
  match s with
  | [] => None
  | x :: s' =>
      match rfind c s' (S i) with
      | Some j => Some j
      | None => if x =? c then Some i else None
      end
  end.

(** [file_path.suffix] *)
Definition path_suffix (p : path) : str :=
  let name := path_name p in
  match rfind 46 name 0 with
  | Some i =>
      if (0 <? i)%nat && (i <? length name - 1)%nat then drop i name else []
  | None => []
  end.

Fixpoint join_parts (ps : list str) : str :=
  match ps with
  | [] => []
  | [a] => a
  | a :: ps' => a ++ 47 :: join_parts ps'
  end.

(** [str(file_path)] *)
Definition path_str (p : path) : str :=
  match p with
  | [] => txt "."
  | a :: ps => if str_eqb a (txt "/") then 47 :: join_parts ps else join_parts p
  end.

Definition project_root : path :=
  [txt "/"; txt "Users"; txt "mpy"; txt "CascadeProjects"; txt "rBUM"].

(** The test of [main] on one part of a path. *)
Definition excluded_part (part : str) : bool :=
  startswith (txt ".") part
  || bool_decide (part ∈ [txt "build"; txt "Pods"; txt "Carthage"]).

(** [any(... for part in file_path.parts)] *)
Definition skipped (p : path) : bool := existsb excluded_part p.

(** ** Files and effects

    A path names a file through the directory entries, which may be links:
    two paths can lead to one file.  A file holds the text its bytes decode
    to as UTF-8, or nothing when reading raises (a directory, no
    permission, bytes that are not UTF-8); a path without entry does not
    exist.  Reading in text mode translates the line ends.  Opening for
    writing truncates the file before any text is written, and the text is
    encoded when it is written: a text with a lone surrogate, which only a
    file name can bring in, raises after the truncation.  The line ends
    written are those of the text (the project root is a POSIX path).  The
    standard output has an encoding and an error handler of its own, given
    by the texts it can encode. *)

Record file := mk_file {
  data : option str;
  writable : bool
}.

Record world := mk_world {
  names : gmap (list (list N)) nat;    (* the file a path leads to *)
  files : gmap nat file;
  stdout : list N -> bool              (* the texts [sys.stdout] encodes *)
}.

(** The file a path leads to. *)
#[global] Instance world_lookup : Lookup (list (list N)) file world :=
  fun p w => i ← names w !! p; files w !! i.

(** The world where the file [p] leads to is [f]; for a path without entry,
    a new file. *)
Definition set_file (p : path) (f : file) (w : world) : world :=
  match names w !! p with
  | Some i => mk_world (names w) (<[i := f]> (files w)) (stdout w)
  | None =>
      let i := fresh (dom (files w)) in
      mk_world (<[p := i]> (names w)) (<[i := f]> (files w)) (stdout w)
  end.

Inductive exn :=
| ReadError (p : path)             (* open(.., 'r') or f.read() raises *)
| PermissionError (p : path)       (* open(.., 'w') raises *)
| UnicodeEncodeError (p : path)    (* f.write raises *)
| StdoutError (s : str)            (* print raises UnicodeEncodeError *)
| ValueError                       (* int or the conversion to text raises *)
| ReError.                         (* re.sub raises *)

Inductive event :=
| OpenRead (p : path)
| OpenWrite (p : path)
| Wrote (p : path) (s : str)
| Printed (s : str).

Inductive result (A : Type) :=
| Ok (a : A)
| Raise (e : exn).
Arguments Ok {A} a.
Arguments Raise {A} e.

(** State of the world, exceptions, and the events in the order they
    happen. *)
Definition M (A : Type) : Type := world -> result A * world * list event.

Definition ret {A} (a : A) : M A := fun fs => (Ok a, fs, []).

Definition bind {A B} (m : M A) (k : A -> M B) : M B :=
  fun fs =>
    match m fs with
    | (Ok a, fs', ev) =>
        match k a fs' with
        | (r, fs'', ev') => (r, fs'', ev ++ ev')
        end
    | (Raise e, fs', ev) => (Raise e, fs', ev)
    end.

Definition raise {A} (e : exn) : M A := fun fs => (Raise e, fs, []).

Definition emit (e : event) : M unit := fun fs => (Ok tt, fs, [e]).

#[global] Instance M_ret : MRet M := @ret.
#[global] Instance M_bind : MBind M := fun A B k m => bind m k.

(** [for x in xs: body(x)] *)
Fixpoint for_each {A} (xs : list A) (body : A -> M unit) : M unit :=
  match xs with
  | [] => ret tt
  | x :: xs' => body x ;; for_each xs' body
  end.

(** [with open(p, 'r', encoding='utf-8') as f: f.read()] *)
Definition read_text (p : path) : M str :=
  emit (OpenRead p) ;;
  ((fun fs =>
      match fs !! p with
      | Some {| data := Some s |} => (Ok (universal_newlines s), fs, [])
      | _ => (Raise (ReadError p), fs, [])
      end) : M str).

(** [with open(p, 'w', encoding='utf-8') as f: f.write(s)] *)
Definition write_text (p : path) (s : str) : M unit :=
  emit (OpenWrite p) ;;
  ((fun fs =>
      let allowed := match fs !! p with Some f => writable f | None => true end in
      if negb allowed then (Raise (PermissionError p), fs, [])
      else if negb (encodable s)
      then (Raise (UnicodeEncodeError p), set_file p (mk_file (Some []) true) fs, [])
      else (Ok tt, set_file p (mk_file (Some s) true) fs, [Wrote p s])) : M unit).

(** [print(s)] *)
Definition print (s : str) : M unit :=
  fun fs =>
    if stdout fs s then (Ok tt, fs, [Printed s])
    else (Raise (StdoutError s), fs, []).

Section Run.

Variable COUNTER_ENABLED : bool.
Variable today : date.

(** The dispatch of [process_file] on the suffix: [None] is the [return]
    of the last branch, [Some None] an exception of the renderer. *)
Definition render (file_path : path) (content : str) : option (option str) :=
  if str_eqb (path_suffix file_path) (txt ".swift")
  then Some (update_swift_file COUNTER_ENABLED today content (path_name file_path))
  else if str_eqb (path_suffix file_path) (txt ".md")
  then Some (update_markdown_file COUNTER_ENABLED today content (path_name file_path))
  else None.

(** The exception of a renderer that raises: the counter text comes first
    and raises [ValueError], for either renderer on the same contents; with
    a counter text, only [re.sub] raises. *)
Definition render_exn (content : str) : exn :=
  match swift_counter_str COUNTER_ENABLED content with
  | None => ValueError
  | Some _ => ReError
  end.

Definition updated_notice (file_path : path) : str :=
  txt "Updated " ++ path_str file_path.

Definition process_file (file_path : path) : M unit :=
  content ← read_text file_path;
  match render file_path content with
  | None => ret tt
  | Some None => raise (render_exn content)
  | Some (Some new_content) =>
      if negb (str_eqb new_content content)
      then write_text file_path new_content ;; print (updated_notice file_path)
      else ret tt
  end.

(** [project_root.rglob(f"*{ext}")] over [tree], the entries below the root
    in the order the walk meets them, each given by its parts after the
    root. *)
Definition rglob (tree : list path) (ext : str) : list path :=
  List.filter (fun p => endswith ext (path_name p))
              (List.map (fun rel => project_root ++ rel) tree).

Definition counter_message : str :=
  if COUNTER_ENABLED
  then txt "Warning: Update counter is enabled. This should only be true for release."
  else txt "Note: Update counter is disabled during core development.".

Definition main (tree : list path) : M unit :=
  print counter_message ;;
  for_each [txt ".swift"; txt ".md"] (fun ext =>
    for_each (rglob tree ext) (fun file_path =>
      if skipped file_path then ret tt      (* continue *)
      else process_file file_path)).

End Run.

(** ** Notions of the specification *)

(** Number of lines of a block of newline-terminated lines. *)
Definition line_count (s : str) : nat := length (List.filter (N.eqb nl) s).

(** The rest of the line at the head of [s]. *)
Fixpoint line_head (s : str) : str :=
  match s with
  | [] => []
  | c :: s' => if c =? nl then [] else c :: line_head s'
  end.

(** What follows the first occurrence of [key], up to the end of that
    line. *)
Fixpoint field_after (key s : str) : option str :=
  match strip_prefix key s with
  | Some rest => Some (line_head rest)
  | None =>
      match s with
      | [] => None
      | _ :: s' => field_after key s'
      end
  end.

(** The creation date and the update date a file records. *)
Definition creation_date_of (content : str) : option str :=
  field_after (txt "First created: ") content.

Definition update_date_of (content : str) : option str :=
  field_after (txt "Last updated: ") content.

(** [t] is what [s] ends with. *)
Definition is_suffix (t s : str) : bool := endswith t s.

(** A file name without backslash and without colon. *)
Definition plain_name (name : str) : bool :=
  forallb (fun c => negb (c =? backslash) && negb (c =? 58)) name.

(** The paths [main] hands to [process_file], in order. *)
Definition targets (tree : list path) : list path :=
  List.filter (fun p => negb (skipped p))
              (rglob tree (txt ".swift") ++ rglob tree (txt ".md")).

(** The path an event is about. *)
Definition event_path (e : event) : option path :=
  match e with
  | OpenRead p | OpenWrite p | Wrote p _ => Some p
  | Printed _ => None
  end.

(** ** Sample inputs *)

Definition sample_day : date := mk_date 4 November 2026.

Definition a_swift : str := txt "A.swift".

(** ["# Title\nSome intro.\n\n## Section\nBody"] *)
Definition doc_example : str :=
  txt "# Title" ++ [nl] ++ txt "Some intro." ++ [nl; nl]
  ++ txt "## Section" ++ [nl] ++ txt "Body".

(** ["// old header\nfoo()"] *)
Definition old_header_example : str :=
  txt "// old header" ++ [nl] ++ txt "foo()".

(** A source file with a header block and a second comment block of the
    same shape in its body. *)
Definition second_block_body : str :=
  txt "import Foundation" ++ [nl]
  ++ txt "//" ++ [nl] ++ txt "// Section" ++ [nl] ++ txt "// notes" ++ [nl]
  ++ txt "//" ++ [nl] ++ txt "let x = 1" ++ [nl].

Definition second_block_example : str :=
  txt "//" ++ [nl] ++ txt "//  A.swift" ++ [nl] ++ txt "//  rBUM" ++ [nl]
  ++ txt "//" ++ [nl] ++ second_block_body.

(** A source file whose header carries another creation date. *)
Definition dated_example : str :=
  txt "//" ++ [nl] ++ txt "//  A.swift" ++ [nl] ++ txt "//  rBUM" ++ [nl]
  ++ txt "//" ++ [nl]
  ++ txt "//  First created: 1 January 2020" ++ [nl]
  ++ txt "//  Last updated: 2 January 2020" ++ [nl]
  ++ txt "//" ++ [nl] ++ txt "let x = 1" ++ [nl].

(** A file name with a backslash followed by the letter n. *)
Definition escape_name : str := txt "a" ++ [backslash] ++ txt "n.swift".

(** A file name with a byte that is not UTF-8, as the interpreter decodes
    it: a lone surrogate. *)
Definition surrogate_name : str := txt "a" ++ [56575] ++ txt ".swift".

Definition at_root (name : str) : path := project_root ++ [name].

(** A world with one file at the root, no links, and a standard output
    that encodes UTF-8 and refuses lone surrogates. *)
Definition one_file (name content : str) : world :=
  mk_world {[ at_root name := 0%nat ]} {[ 0%nat := mk_file (Some content) true ]}
           encodable.

Definition foo_call : str := txt "foo()".

(** The file [A.swift] after one run and after two runs on [sample_day]:
    the second run leaves the last three lines of the first header under the
    new one. *)
Definition stale_lines (today : date) : str :=
  txt "//  First created: " ++ CREATION_DATE ++ [nl]
  ++ txt "//  Last updated: " ++ CURRENT_DATE today ++ [nl]
  ++ txt "//" ++ [nl].

Definition once_stamped : str :=
  new_header false sample_day foo_call a_swift ++ foo_call.

Definition twice_stamped : str :=
  new_header false sample_day foo_call a_swift ++ stale_lines sample_day ++ foo_call.

(** The events of a run of [process_file] on [p] that writes [new_content]. *)
Definition update_events (p : path) (new_content : str) : list event :=
  [OpenRead p; OpenWrite p; Wrote p new_content; Printed (updated_notice p)].

(** What the source renderer makes of [dated_example]: the new header, and
    under it the date lines of the old one. *)
Definition dated_result : str :=
  new_header false sample_day dated_example a_swift
  ++ txt "//  First created: 1 January 2020" ++ [nl]
  ++ txt "//  Last updated: 2 January 2020" ++ [nl]
  ++ txt "//" ++ [nl] ++ txt "let x = 1" ++ [nl].

(** What the source renderer makes of [second_block_example]. *)
Definition second_block_result : str :=
  new_header false sample_day second_block_example a_swift
  ++ txt "import Foundation" ++ [nl]
  ++ new_header false sample_day second_block_example a_swift
  ++ txt "let x = 1" ++ [nl].

(** A source file with a header of the expected shape. *)
Definition headed_example : str :=
  txt "//" ++ [nl] ++ txt "//  old" ++ [nl] ++ txt "//  rBUM" ++ [nl]
  ++ txt "//" ++ [nl] ++ txt "let x = 1" ++ [nl].

(** What the source renderer makes of it for the file [escape_name]: the
    name line is broken in two. *)
Definition escape_result : str :=
  txt "//" ++ [nl] ++ txt "//  a" ++ [nl] ++ txt ".swift" ++ [nl]
  ++ txt "//  rBUM" ++ [nl] ++ txt "//" ++ [nl]
  ++ txt "//  First created: " ++ CREATION_DATE ++ [nl]
  ++ txt "//  Last updated: " ++ CURRENT_DATE sample_day ++ [nl]
  ++ txt "//" ++ [nl] ++ txt "let x = 1" ++ [nl].

(** A tree with a source file, a file of a hidden directory and a source
    file that cannot be read. *)
Definition hidden_path : path := project_root ++ [txt ".git"; txt "B.swift"].

Definition broken_path : path := at_root (txt "C.swift").

Definition sample_tree : list path :=
  [[a_swift]; [txt ".git"; txt "B.swift"]; [txt "C.swift"]; [txt "notes.md"]].

Definition sample_files : world :=
  mk_world
    (<[at_root a_swift := 0%nat]>
     (<[hidden_path := 1%nat]>
      (<[broken_path := 2%nat]>
       {[ at_root (txt "notes.md") := 3%nat ]})))
    (<[0%nat := mk_file (Some foo_call) true]>
     (<[1%nat := mk_file (Some foo_call) true]>
      (<[2%nat := mk_file None true]>
       {[ 3%nat := mk_file (Some (txt "# Notes")) true ]})))
    encodable.

Definition sample_files_after_a : world :=
  set_file (at_root a_swift) (mk_file (Some once_stamped) true) sample_files.

(** A source file at the root and a path of a hidden directory that lead to
    one file: a link. *)
Definition link_path : path := at_root (txt "link.swift").

Definition linked_tree : list path := [[txt "link.swift"]; [txt ".git"; txt "B.swift"]].

Definition linked_files : world :=
  mk_world (<[link_path := 0%nat]> {[ hidden_path := 0%nat ]})
           {[ 0%nat := mk_file (Some foo_call) true ]}
           encodable.

Definition link_stamped : str :=
  new_header false sample_day foo_call (txt "link.swift") ++ foo_call.

(** A document whose name holds a lone surrogate, and what a run makes of
    it. *)
Definition surrogate_doc : str := txt "b" ++ [56575] ++ txt ".md".

Definition notes : str := txt "# Notes".

Definition notes_stamped : str :=
  notes ++ [nl; nl] ++ date_section false sample_day notes.

(** A document with the line ends of another system, as its file holds
    it, and after a run. *)
Definition crlf_doc : str := txt "# Notes" ++ [13; nl] ++ txt "Body".

Definition crlf_stamped : str :=
  txt "# Notes" ++ [nl] ++ txt "Body" ++ [nl; nl]
  ++ txt "First created: 6 February 2025" ++ [nl]
  ++ txt "Last updated: 4 November 2026" ++ [nl] ++ [nl].

(** A tree with a source file and a text file, both with a file. *)
Definition text_path : path := at_root (txt "x.txt").

Definition plain_tree : list path := [[a_swift]; [txt "x.txt"]].

Definition plain_files : world :=
  mk_world (<[at_root a_swift := 0%nat]> {[ text_path := 1%nat ]})
           (<[0%nat := mk_file (Some foo_call) true]>
            {[ 1%nat := mk_file (Some foo_call) true ]})
           encodable.

Definition sample_events_a : list event :=
  update_events (at_root a_swift) once_stamped.

(** ** Auxiliary notions of the proofs *)

(** No character of [s] is [x]. *)
Definition lacks (x : char) (s : str) : bool := forallb (fun c => negb (c =? x)) s.

Definition no_backslash (s : str) : bool := lacks backslash s.

(** The characters [strftime_dBY] produces: digits, the space, lower-case
    letters and the initials of the month names. *)
Definition date_char (c : char) : bool :=
  is_digit c || (c =? 32) || ((97 <=? c) && (c <=? 122))
  || existsb (N.eqb c) (txt "JFMASOND").

(** The fixed parts of the header around the file name. *)
Definition header_lead : str := txt "//" ++ [nl] ++ txt "//  ".

Definition header_mid : str :=
  txt "//  rBUM" ++ [nl] ++ txt "//" ++ [nl] ++ txt "//  ".

(** A computation that works on the paths [P] only: it leaves the names,
    the standard output and the set of files as they are, changes no file
    but those the paths [P] lead to, and every event is about a path of
    [P]. *)
Definition confined (P : path -> Prop) {A} (m : M A) : Prop :=
  forall fs,
    names (m fs).1.2 = names fs
    /\ stdout (m fs).1.2 = stdout fs
    /\ dom (files (m fs).1.2) = dom (files fs)
    /\ (forall i, (forall p, P p -> names fs !! p <> Some i) ->
          files (m fs).1.2 !! i = files fs !! i)
    /\ (forall e p, e ∈ (m fs).2 -> event_path e = Some p -> P p).

(** The outcome of [process_file], case by case. *)
Definition process_file_outcome (flag : bool) (today : date) (p : path) (fs : world)
  : result unit * world * list event :=
  match fs !! p with
  | Some {| data := Some raw; writable := w |} =>
      let content := universal_newlines raw in
      match render flag today p content with
      | None => (Ok tt, fs, [OpenRead p])
      | Some None => (Raise (render_exn flag content), fs, [OpenRead p])
      | Some (Some new_content) =>
          if str_eqb new_content content then (Ok tt, fs, [OpenRead p])
          else if negb w then (Raise (PermissionError p), fs, [OpenRead p; OpenWrite p])
          else if negb (encodable new_content)
          then (Raise (UnicodeEncodeError p), set_file p (mk_file (Some []) true) fs,
                [OpenRead p; OpenWrite p])
          else if stdout fs (updated_notice p)
          then (Ok tt, set_file p (mk_file (Some new_content) true) fs,
                [OpenRead p; OpenWrite p; Wrote p new_content;
                 Printed (updated_notice p)])
          else (Raise (StdoutError (updated_notice p)),
                set_file p (mk_file (Some new_content) true) fs,
                [OpenRead p; OpenWrite p; Wrote p new_content])
      end
  | _ => (Raise (ReadError p), fs, [OpenRead p])
  end.

(** [int_of_digits] from an accumulator. *)
Definition digits_acc (acc : N) (s : str) : N :=
  fold_left (fun acc c => 10 * acc + default 0 (digit_value c)) s acc.

(** The literal of [count_pattern]. *)
Definition count_key : str := txt "Update count: ".

(** The header with counter line, up to the count. *)
Definition counted_lead (today : date) (name : str) : str :=
  header_lead ++ name ++ nl :: header_mid
  ++ txt "First created: " ++ CREATION_DATE ++ nl :: txt "//  "
  ++ txt "Last updated: " ++ CURRENT_DATE today ++ nl :: txt "//  ".

(** How a block of the shape of [header_pattern] starts. *)
Definition block_start : str := txt "//" ++ [nl] ++ txt "//".

(** The literals the documentation renderer looks for, and the two lines
    of its date section. *)
Definition fc_key : str := txt "First created:".
Definition lu_key : str := txt "Last updated:".
Definition title_key : str := txt "# ".
Definition fc_line : str := fc_key ++ txt " " ++ CREATION_DATE.
Definition lu_line (today : date) : str := lu_key ++ txt " " ++ CURRENT_DATE today.

(** The last line of a text. *)
Definition last_line (s : str) : str := default [] (last (split_lines s)).

(** Notions for documents that carry a date section and for the header a
    run left in a source file. *)

(** The literal of [section_pattern]. *)
Definition section_key : str := nl :: txt "##".

(** No line of the text starts with ['# ']. *)
Definition no_title_line (s : str) : bool :=
  forallb (fun l => negb (startswith title_key l)) (split_lines s).

(** The two slashes of a comment line. *)
Definition slashes : str := txt "//".

(** A title with a description, a body of one section, and the parts of a
    body of two sections. *)
Definition titled_example : str := txt "# Title" ++ [nl] ++ txt "Some intro.".
Definition one_section : str := txt "## Section" ++ [nl] ++ txt "Body".
Definition first_section : str := txt "## First" ++ [nl] ++ txt "Body" ++ [nl].
Definition later_section : str := txt "Second" ++ [nl] ++ txt "More".

(** * The manifest inspection ([Scripts/file_inspection.py])

    The script reads the project manifest line by line, collects what the
    group of its pattern captures in each line, walks the working directory
    for source files and prints, sorted, the relative paths that were not
    captured.  The manifest is the text [open(..., "r")] yields; the walk
    is the list of the directories [os.walk(".")] visits, each with its
    parts below the working directory and the names of its files. *)

(** The greedy star of a class, written as an optional plus: the same
    alternatives in the same order. *)
Definition Star (p : char -> bool) : regex := Opt (Plus p).

(** The pattern of the manifest lines: [path = ], a group with the greedy
    star of [.], and a semicolon. *)
Definition path_key : str := txt "path = ".

Definition path_pattern : regex :=
  Cat (Lit path_key) (Cat (Group 1 (Star dot)) (Lit (txt ";"))).

(** [for line in f]: the lines of a text, each with its newline. *)
Fixpoint file_lines_from (cur rest : str) : list str :=
  match rest with
  | [] => match cur with [] => [] | _ => [rev cur] end
  | c :: rest' =>
      if c =? nl then rev (c :: cur) :: file_lines_from [] rest'
      else file_lines_from (c :: cur) rest'
  end.

Definition file_lines (s : str) : list str := file_lines_from [] s.

(** [match.group(1)] of the search in one line, when it matches. *)
Definition reference_of (line : str) : option str :=
  match re_search path_pattern line with
  | Some (_, _, cs) => Some (default [] (group_of 1 cs))
  | None => None
  end.

(** One turn of the first loop. *)
Definition add_reference (acc : gset str) (line : str) : gset str :=
  match reference_of line with
  | Some r => {[ r ]} ∪ acc
  | None => acc
  end.

Definition referenced_files (manifest : str) : gset str :=
  fold_left add_reference (file_lines manifest) ∅.

Definition source_exts : list str :=
  [txt ".swift"; txt ".m"; txt ".h"; txt ".mm"; txt ".cpp"].

(** [file.endswith((".swift", ".m", ".h", ".mm", ".cpp"))] *)
Definition is_source (file : str) : bool :=
  existsb (fun e => endswith e file) source_exts.

(** [os.path.relpath(os.path.join(root, file), ".")] for a directory of
    the walk given by its parts below the working directory. *)
Definition relpath (root : list str) (file : str) : str :=
  join_parts (root ++ [file]).

(** The inner loop, over the files of one directory. *)
Definition add_sources (root : list str) (files : list str) (acc : gset str) : gset str :=
  fold_left (fun acc file =>
               if is_source file then {[ relpath root file ]} ∪ acc else acc)
            files acc.

Definition source_files (walk : list (list str * list str)) : gset str :=
  fold_left (fun acc entry => add_sources entry.1 entry.2 acc) walk ∅.

Definition unreferenced_files (walk : list (list str * list str)) (manifest : str) : gset str :=
  source_files walk ∖ referenced_files manifest.

(** [a < b] on texts: by code points, a proper prefix first. *)
Fixpoint str_ltb (a b : str) : bool :=
  match a, b with
  | _, [] => false
  | [], _ :: _ => true
  | x :: a', y :: b' => (x <? y) || ((x =? y) && str_ltb a' b')
  end.

Definition str_le (a b : str) : Prop := str_ltb b a = false.

(** [sorted] on texts, by insertion. *)
Fixpoint insert_sorted (x : str) (l : list str) : list str :=
  match l with
  | [] => [x]
  | y :: l' => if str_ltb y x then y :: insert_sorted x l' else x :: l
  end.

Definition sorted (l : list str) : list str := foldr insert_sorted [] l.

(** The lines the script prints, and the text it hands to [print]. *)
Definition report_lines (walk : list (list str * list str)) (manifest : str) : list str :=
  sorted (elements (unreferenced_files walk manifest)).

Definition report (walk : list (list str * list str)) (manifest : str) : str :=
  join_lines (report_lines walk manifest).

(** A line of a manifest, cut at the key and at its last semicolon. *)
Definition manifest_lead : str := txt "isa = PBXFileReference; ".
Definition manifest_reference : str := txt "Foo.swift; sourceTree = SOURCE_ROOT; }".

(** The text of a counter line, and inputs that carry one: a source file
    as a run with the counter on left it, with what a run with the counter
    off makes of it, and a document with such a line in its text. *)
Definition counter_key : str := txt "Update count:".






(** A document where a second date block stands in the middle of a line:
    without that block the two ends of the line meet. *)
Definition joined_doc : str :=
  txt "# T" ++ [nl; nl] ++ txt "First created: a" ++ [nl] ++ txt "Last updated: b"
  ++ [nl; nl] ++ txt "Update couFirst created:" ++ [nl] ++ txt "Last updated:" ++ [nl]
  ++ txt "nt: 5" ++ [nl] ++ txt "## S" ++ [nl].

(** A file name that spells the first letter of the counter line as an
    octal escape, and what the replacement path makes of it. *)
Definition octal_name : str := [backslash] ++ txt "125pdate count:.swift".

Definition octal_result : str :=
  txt "//" ++ [nl] ++ txt "//  Update count:.swift" ++ [nl]
  ++ txt "//  rBUM" ++ [nl] ++ txt "//" ++ [nl]
  ++ txt "//  First created: " ++ CREATION_DATE ++ [nl]
  ++ txt "//  Last updated: " ++ CURRENT_DATE sample_day ++ [nl]
  ++ txt "//" ++ [nl] ++ txt "let x = 1" ++ [nl].

Definition joined_result : str :=
  txt "# T" ++ [nl; nl] ++ txt "Update count: 5"
  ++ date_section false sample_day joined_doc ++ [nl] ++ txt "## S" ++ [nl].

(** * Properties *)

(** ** Texts *)

Lemma forallb_weaken (P Q : char -> bool) s :
  (forall c, P c = true -> Q c = true) -> forallb P s = true -> forallb Q s = true.
Proof.
  intros HPQ. induction s as [|c s IH]; simpl; [done|].
  intros [Hc Hs]%andb_prop. rewrite (HPQ _ Hc), (IH Hs). reflexivity.
Qed.

Lemma lacks_app x s t : lacks x (s ++ t) = lacks x s && lacks x t.
Proof. apply forallb_app. Qed.

Lemma lacks_cons x c s : lacks x (c :: s) = negb (c =? x) && lacks x s.
Proof. reflexivity. Qed.

Lemma uint_chars_digits d : forallb date_char (uint_chars d) = true.
Proof. induction d; simpl; auto. Qed.

Lemma strftime_chars d : forallb date_char (strftime_dBY d) = true.
Proof.
  unfold strftime_dBY, decimal. rewrite !forallb_app, !uint_chars_digits.
  destruct (mon d); reflexivity.
Qed.

(** A date has none of the characters outside [date_char]: no newline, no
    backslash, no colon, no capital U. *)
Lemma lacks_date x d : date_char x = false -> lacks x (strftime_dBY d) = true.
Proof.
  intros Hx. eapply forallb_weaken; [|apply strftime_chars].
  intros c Hc. destruct (N.eqb_spec c x) as [->|]; [congruence | reflexivity].
Qed.

Lemma plain_name_lacks_colon name : plain_name name = true -> lacks 58 name = true.
Proof. apply forallb_weaken. intros c [_ H]%andb_prop. exact H. Qed.

Lemma plain_name_no_backslash name : plain_name name = true -> no_backslash name = true.
Proof. apply forallb_weaken. intros c [H _]%andb_prop. exact H. Qed.

Lemma line_count_app s t : line_count (s ++ t) = (line_count s + line_count t)%nat.
Proof. unfold line_count. rewrite List.filter_app, length_app. reflexivity. Qed.

Lemma line_count_none s : lacks nl s = true -> line_count s = 0%nat.
Proof.
  unfold line_count, lacks.
  induction s as [|c s IH]; cbn [List.filter forallb]; [done|].
  intros [Hc Hs]%andb_prop. rewrite N.eqb_sym in Hc.
  destruct (nl =? c); [done | apply IH, Hs].
Qed.

Lemma strip_prefix_app key rest : strip_prefix key (key ++ rest) = Some rest.
Proof.
  induction key as [|a key IH]; [reflexivity|].
  cbn [strip_prefix app]. rewrite N.eqb_refl. exact IH.
Qed.

(** A key with [x] in it and without newline does not start inside a run
    without [x] that a newline ends. *)
Lemma strip_prefix_blocked x key run s :
  lacks x key = false -> lacks nl key = true -> lacks x run = true ->
  strip_prefix key (run ++ nl :: s) = None.
Proof.
  revert run. induction key as [|a key IH]; intros run Hx Hnl Hrun; [discriminate|].
  rewrite lacks_cons in Hx, Hnl. apply andb_prop in Hnl as [Ha Hnl].
  destruct run as [|c run]; cbn [app strip_prefix].
  - destruct (a =? nl); [discriminate | reflexivity].
  - rewrite lacks_cons in Hrun. apply andb_prop in Hrun as [Hc Hrun].
    destruct (N.eqb_spec a c) as [->|]; [|reflexivity].
    rewrite Hc in Hx. apply IH; assumption.
Qed.

Lemma line_head_app run s : lacks nl run = true -> line_head (run ++ nl :: s) = run.
Proof.
  induction run as [|c run IH]; cbn [app line_head].
  - rewrite N.eqb_refl. reflexivity.
  - rewrite lacks_cons. intros [Hc Hr]%andb_prop. destruct (c =? nl); [discriminate|].
    rewrite (IH Hr). reflexivity.
Qed.

(** *** The first occurrence of a key *)

Lemma field_after_skip a key pre s :
  lacks a pre = true ->
  field_after (a :: key) (pre ++ s) = field_after (a :: key) s.
Proof.
  induction pre as [|c pre IH]; [reflexivity|].
  rewrite lacks_cons. intros [Hc Hp]%andb_prop.
  cbn [app field_after strip_prefix].
  rewrite N.eqb_sym. destruct (c =? a); [discriminate|]. apply IH, Hp.
Qed.

Lemma field_after_skip_cons a key c s :
  (c =? a) = false ->
  field_after (a :: key) (c :: s) = field_after (a :: key) s.
Proof.
  intros H. apply (field_after_skip a key [c] s). rewrite lacks_cons, H. reflexivity.
Qed.

Lemma field_after_over x key run s :
  lacks x key = false -> lacks nl key = true -> lacks x run = true ->
  field_after key (run ++ nl :: s) = field_after key (nl :: s).
Proof.
  intros Hx Hnl. induction run as [|c run IH]; intros Hrun; [reflexivity|].
  change ((c :: run) ++ nl :: s) with (c :: (run ++ nl :: s)).
  cbn [field_after].
  change (c :: (run ++ nl :: s)) with ((c :: run) ++ nl :: s).
  rewrite (strip_prefix_blocked x key (c :: run) s Hx Hnl Hrun).
  apply IH. rewrite lacks_cons in Hrun. apply andb_prop in Hrun as [_ Hrun]. exact Hrun.
Qed.

Lemma field_after_hit key value s :
  lacks nl value = true ->
  field_after key (key ++ value ++ nl :: s) = Some value.
Proof.
  intros Hv. destruct key as [|a key].
  - destruct (value ++ nl :: s) eqn:E; cbn [field_after strip_prefix app];
      rewrite <- ?E, line_head_app; auto.
  - change ((a :: key) ++ value ++ nl :: s) with (a :: (key ++ value ++ nl :: s)).
    cbn [field_after].
    change (a :: (key ++ value ++ nl :: s)) with ((a :: key) ++ value ++ nl :: s).
    rewrite strip_prefix_app, line_head_app; auto.
Qed.

(** *** Occurrences of a key *)


Lemma contains_skip a key pre s :
  lacks a pre = true -> contains (a :: key) (pre ++ s) = contains (a :: key) s.
Proof.
  induction pre as [|c pre IH]; [reflexivity|].
  rewrite lacks_cons. intros [Hc Hp]%andb_prop.
  cbn [app contains startswith].
  rewrite N.eqb_sym. destruct (c =? a); [discriminate|]. apply IH, Hp.
Qed.

Lemma contains_miss key c s :
  startswith key (c :: s) = false -> contains key (c :: s) = contains key s.
Proof. intros H. cbn [contains]. rewrite H. reflexivity. Qed.

Lemma startswith_line key run s :
  lacks nl key = true -> startswith key (run ++ nl :: s) = startswith key run.
Proof.
  revert run. induction key as [|a key IH]; intros run Hk; [reflexivity|].
  rewrite lacks_cons in Hk. apply andb_prop in Hk as [Ha Hk].
  destruct run as [|c run]; cbn [app startswith].
  - destruct (a =? nl); [discriminate | reflexivity].
  - rewrite (IH run Hk). reflexivity.
Qed.

(** A key without newline occurs in the line or after it. *)
Lemma contains_line a key run s :
  lacks nl (a :: key) = true ->
  contains (a :: key) (run ++ nl :: s)
  = contains (a :: key) run || contains (a :: key) (nl :: s).
Proof.
  intros Hk. induction run as [|c run IH]; [reflexivity|].
  change ((c :: run) ++ nl :: s) with (c :: (run ++ nl :: s)).
  cbn [contains]. rewrite IH.
  change (c :: (run ++ nl :: s)) with ((c :: run) ++ nl :: s).
  rewrite (startswith_line _ (c :: run) s Hk), orb_assoc. reflexivity.
Qed.

(** ** Replacement templates *)

(** A text without backslash is its own template. *)
Lemma parse_template_plain groups t fuel :
  no_backslash t = true -> (length t <= fuel)%nat ->
  parse_template fuel groups t = Some (List.map TChar t).
Proof.
  revert fuel. induction t as [|c t IH]; intros fuel Hb Hf.
  - destruct fuel; reflexivity.
  - destruct fuel as [|fuel]; [simpl in Hf; lia|].
    unfold no_backslash in Hb. rewrite lacks_cons in Hb.
    apply andb_prop in Hb as [Hc Ht].
    cbn [parse_template]. rewrite Hc.
    rewrite (IH fuel Ht) by (simpl in Hf; lia). reflexivity.
Qed.

Lemma expand_chars t whole cs : expand (List.map TChar t) whole cs = t.
Proof.
  unfold expand. induction t as [|c t IH]; [reflexivity|].
  cbn [List.map concat expand_item]. rewrite IH. reflexivity.
Qed.

(** Where the pattern matches at the head of the input, the result of the
    substitution starts with the expansion of the template. *)
Lemma subx_head r tpl s rest cs :
  match_here false r s = Some (rest, cs) ->
  exists whole cs' tail, subx r tpl s 0 = expand tpl whole cs' ++ tail.
Proof.
  intros H. destruct s as [|c s]; cbn [subx]; rewrite H.
  - destruct (length [] <=? length rest)%nat; eauto.
  - destruct (length (c :: s) <=? length rest)%nat; eauto.
Qed.

Lemma re_sub_plain_head r repl s rest cs :
  no_backslash repl = true ->
  re_match r s = Some (rest, cs) ->
  exists tail, re_sub r repl s = Some (repl ++ tail).
Proof.
  intros Hb Hm. unfold re_sub.
  rewrite parse_template_plain by (auto; lia).
  destruct (subx_head r (List.map TChar repl) s rest cs Hm) as (w & cs' & tail & ->).
  rewrite expand_chars. eauto.
Qed.

(** ** The source-file renderer *)

(** With the flag off the counter text is empty and the renderers are
    what they are without it. *)
Lemma new_header_off today content name :
  new_header false today content name = header_block today [] name.
Proof. reflexivity. Qed.

Lemma date_section_off today content :
  date_section false today content = date_block today [].
Proof. reflexivity. Qed.

(** With a counter text the source renderer is what it is after the first
    line of its body. *)
Lemma swift_with_counter flag today content name counter_str :
  swift_counter_str flag content = Some counter_str ->
  update_swift_file flag today content name
  = match re_match header_pattern content with
    | Some _ => re_sub header_pattern (new_header flag today content name) content
    | None => Some (new_header flag today content name ++ content)
    end.
Proof. intros H. unfold update_swift_file, new_header. rewrite H. reflexivity. Qed.

Lemma md_with_counter flag today content name counter_str :
  md_counter_str flag content = Some counter_str ->
  update_markdown_file flag today content name
  = match re_sub dates_pattern [] content with
    | None => None
    | Some content' =>
        match re_search section_pattern (drop (length (md_header content)) content') with
        | Some (start, _, _) =>
            Some (take (length (md_header content) + start) content'
                  ++ date_section flag today content
                  ++ drop (length (md_header content) + start) content')
        | None =>
            Some (md_header content ++ date_section flag today content
                  ++ drop (length (md_header content)) content')
        end
    end.
Proof. intros H. unfold update_markdown_file, date_section. rewrite H. reflexivity. Qed.

Lemma swift_off today content name :
  update_swift_file false today content name
  = match re_match header_pattern content with
    | Some _ => re_sub header_pattern (new_header false today content name) content
    | None => Some (new_header false today content name ++ content)
    end.
Proof. reflexivity. Qed.

Lemma md_off today content name :
  update_markdown_file false today content name
  = match re_sub dates_pattern [] content with
    | None => None
    | Some content' =>
        match re_search section_pattern (drop (length (md_header content)) content') with
        | Some (start, _, _) =>
            Some (take (length (md_header content) + start) content'
                  ++ date_section false today content
                  ++ drop (length (md_header content) + start) content')
        | None =>
            Some (md_header content ++ date_section false today content
                  ++ drop (length (md_header content)) content')
        end
    end.
Proof. reflexivity. Qed.

Section Header.

Variable today : date.
Variables content name : str.

(** The header without counter line, cut at the file name and at the two
    dates. *)
Lemma header_shape tail :
  new_header false today content name ++ tail
  = header_lead ++ name ++ nl :: header_mid
    ++ txt "First created: " ++ CREATION_DATE ++ nl :: txt "//  "
    ++ txt "Last updated: " ++ CURRENT_DATE today ++ nl :: txt "//" ++ nl :: tail.
Proof.
  rewrite new_header_off; unfold header_block, header_lead, header_mid.
  rewrite <- !app_assoc. reflexivity.
Qed.

Lemma no_backslash_header :
  no_backslash name = true -> no_backslash (new_header false today content name) = true.
Proof.
  intros Hn. unfold no_backslash in *.
  rewrite new_header_off; unfold header_block, CURRENT_DATE.
  rewrite !lacks_app, Hn, lacks_date by reflexivity. reflexivity.
Qed.

(** Without a header of the expected shape the new header goes in front of
    the content, whatever the file name. *)
Lemma swift_prepend :
  re_match header_pattern content = None ->
  update_swift_file false today content name
  = Some (new_header false today content name ++ content).
Proof. intros H. rewrite swift_off, H. reflexivity. Qed.

(** For a file name without backslash the result starts with the new
    header, on both paths. *)
Lemma swift_header_prefix :
  no_backslash name = true ->
  exists tail,
    update_swift_file false today content name
    = Some (new_header false today content name ++ tail).
Proof.
  intros Hn. rewrite swift_off.
  destruct (re_match header_pattern content) as [[rest cs]|] eqn:Hm.
  - eapply re_sub_plain_head; eauto using no_backslash_header.
  - eauto.
Qed.

Lemma header_creation_date tail :
  plain_name name = true ->
  creation_date_of (new_header false today content name ++ tail) = Some CREATION_DATE.
Proof.
  intros Hn%plain_name_lacks_colon.
  unfold creation_date_of. rewrite header_shape.
  change (txt "First created: ") with (70 :: txt "irst created: ") at 1.
  rewrite field_after_skip by reflexivity.
  change (70 :: txt "irst created: ") with (txt "First created: ").
  rewrite (field_after_over 58) by (reflexivity || assumption).
  change (txt "First created: ") with (70 :: txt "irst created: ") at 1.
  rewrite field_after_skip_cons, field_after_skip by reflexivity.
  change (70 :: txt "irst created: ") with (txt "First created: ").
  apply field_after_hit. reflexivity.
Qed.

Lemma header_update_date tail :
  plain_name name = true ->
  update_date_of (new_header false today content name ++ tail)
  = Some (CURRENT_DATE today).
Proof.
  intros Hn%plain_name_lacks_colon.
  unfold update_date_of. rewrite header_shape.
  change (txt "Last updated: ") with (76 :: txt "ast updated: ") at 1.
  rewrite field_after_skip by reflexivity.
  change (76 :: txt "ast updated: ") with (txt "Last updated: ").
  rewrite (field_after_over 58) by (reflexivity || assumption).
  change (txt "Last updated: ") with (76 :: txt "ast updated: ") at 1.
  rewrite field_after_skip_cons, field_after_skip by reflexivity.
  change (txt "First created: ") with ([70] ++ txt "irst created: ").
  rewrite <- !app_assoc.
  rewrite (field_after_skip 76 _ [70]) by reflexivity.
  rewrite (field_after_skip 76 _ (txt "irst created: ")) by reflexivity.
  rewrite (field_after_skip 76 _ CREATION_DATE) by reflexivity.
  rewrite field_after_skip_cons, field_after_skip by reflexivity.
  change (76 :: txt "ast updated: ") with (txt "Last updated: ").
  apply field_after_hit. apply lacks_date. reflexivity.
Qed.

Lemma header_mid_split :
  header_mid = txt "//  rB" ++ 85 :: txt "M" ++ [nl] ++ txt "//" ++ [nl] ++ txt "//  ".
Proof. reflexivity. Qed.



End Header.

(** C10.  For the file name [a\n.swift] (a backslash, then the letter n) and
    a content with a header of the expected shape, the replacement path
    expands the escape: the result does not start with the header that was
    rendered, while the prepend path puts that header in front as it is. *)
Theorem escaped_name_breaks_header :
  update_swift_file false sample_day headed_example escape_name = Some escape_result
  /\ startswith (new_header false sample_day headed_example escape_name) escape_result
     = false
  /\ update_swift_file false sample_day (txt "let x = 1" ++ [nl]) escape_name
     = Some (new_header false sample_day (txt "let x = 1" ++ [nl]) escape_name
             ++ txt "let x = 1" ++ [nl]).
Proof. vm_compute. auto. Qed.

(** C2.  A source file with a second comment block of the header's shape in
    its body: both blocks are replaced, and the text after the leading
    block is no longer what the result ends with. *)
Theorem second_block_rewritten :
  update_swift_file false sample_day second_block_example a_swift
  = Some second_block_result
  /\ is_suffix second_block_body second_block_example = true
  /\ is_suffix second_block_body second_block_result = false.
Proof. vm_compute. auto. Qed.

(** C5, as stated: a header block of six lines in front of the input. *)
Lemma six_line_header_refuted :
  ~ (update_swift_file false sample_day old_header_example a_swift
     = Some (new_header false sample_day old_header_example a_swift ++ old_header_example)
     /\ line_count (new_header false sample_day old_header_example a_swift) = 6%nat).
Proof. intros [_ H]. vm_compute in H. discriminate. Qed.

Lemma old_header_no_match : re_match header_pattern old_header_example = None.
Proof. vm_compute. reflexivity. Qed.

(** C5, amended.  For the input ["// old header\nfoo()"] the result is the
    fresh header in front of the unchanged input, and that header has seven
    lines (and those of the file name, if it has any). *)
Theorem old_header_prepended (today : date) (name : str) :
  update_swift_file false today old_header_example name
  = Some (new_header false today old_header_example name ++ old_header_example)
  /\ line_count (new_header false today old_header_example name)
     = (7 + line_count name)%nat.
Proof.
  split.
  - apply swift_prepend, old_header_no_match.
  - rewrite new_header_off; unfold header_block, CURRENT_DATE.
    rewrite !line_count_app.
    rewrite (line_count_none (strftime_dBY today)) by (apply lacks_date; reflexivity).
    change (line_count (txt "//")) with 0%nat.
    change (line_count (txt "//  ")) with 0%nat.
    change (line_count [nl]) with 1%nat.
    change (line_count (txt "//  rBUM")) with 0%nat.
    change (line_count (txt "//  First created: ")) with 0%nat.
    change (line_count (txt "//  Last updated: ")) with 0%nat.
    change (line_count CREATION_DATE) with 0%nat.
    change (line_count []) with 0%nat.
    lia.
Qed.

(** C3, as stated: the creation date a file records is kept.  A header
    with another creation date loses it to the constant. *)
Lemma other_creation_date_lost :
  update_swift_file false sample_day dated_example a_swift = Some dated_result
  /\ creation_date_of dated_example = Some (txt "1 January 2020")
  /\ creation_date_of dated_result = Some CREATION_DATE
  /\ creation_date_of dated_result <> creation_date_of dated_example.
Proof.
  split; [vm_compute; reflexivity|].
  split; [vm_compute; reflexivity|]. split; [vm_compute; reflexivity|].
  vm_compute. discriminate.
Qed.

(** C3, amended.  For a file name without backslash and colon, the first
    run on any content and a second run on its result, on any two days,
    both yield a file whose recorded creation date is [CREATION_DATE]; the
    update date recorded after the second run is the day of that run. *)
Theorem restamp_keeps_creation_date (day1 day2 : date) (content name : str) :
  plain_name name = true ->
  exists once twice,
    update_swift_file false day1 content name = Some once
    /\ update_swift_file false day2 once name = Some twice
    /\ creation_date_of once = Some CREATION_DATE
    /\ creation_date_of twice = Some CREATION_DATE
    /\ update_date_of twice = Some (strftime_dBY day2).
Proof.
  intros Hn.
  destruct (swift_header_prefix day1 content name (plain_name_no_backslash _ Hn))
    as [tail1 H1].
  destruct (swift_header_prefix day2 (new_header false day1 content name ++ tail1) name
              (plain_name_no_backslash _ Hn)) as [tail2 H2].
  eexists _, _. split; [exact H1|]. split; [exact H2|].
  rewrite !header_creation_date, header_update_date by assumption. auto.
Qed.

Lemma restamp_keeps_creation_date_witness :
  plain_name a_swift = true
  /\ exists once twice,
       update_swift_file false sample_day foo_call a_swift = Some once
       /\ update_swift_file false (mk_date 5 November 2026) once a_swift = Some twice
       /\ creation_date_of once = Some CREATION_DATE
       /\ creation_date_of twice = Some CREATION_DATE
       /\ update_date_of twice = Some (strftime_dBY (mk_date 5 November 2026)).
Proof.
  split; [reflexivity|].
  apply (restamp_keeps_creation_date sample_day (mk_date 5 November 2026) foo_call a_swift).
  reflexivity.
Defined.

(** ** The documentation renderer *)

Lemma doc_example_header : md_header doc_example = doc_example ++ [nl; nl].
Proof. vm_compute. reflexivity. Qed.

(** C4.  For ["# Title\nSome intro.\n\n## Section\nBody"] the description
    scan runs to the end of the document, so the date block is put after
    [Body], at the end, and not before the line [## Section]. *)
Theorem doc_example_dates_at_end (today : date) (name : str) :
  update_markdown_file false today doc_example name
  = Some (doc_example ++ [nl; nl] ++ date_section false today doc_example).
Proof.
  rewrite md_off.
  rewrite doc_example_header.
  replace (re_sub dates_pattern [] doc_example) with (Some doc_example)
    by (vm_compute; reflexivity).
  replace (drop (length (doc_example ++ [nl; nl])) doc_example) with (@nil N)
    by (vm_compute; reflexivity).
  replace (re_search section_pattern []) with (@None (nat * list N * captures))
    by (vm_compute; reflexivity).
  rewrite app_nil_r, <- app_assoc. reflexivity.
Qed.

(** ** Effects *)

Lemma bind_run {A B} (m : M A) (k : A -> M B) fs :
  (m ≫= k) fs
  = match m fs with
    | (Ok a, fs', ev) => match k a fs' with (r, fs'', ev') => (r, fs'', ev ++ ev') end
    | (Raise e, fs', ev) => (Raise e, fs', ev)
    end.
Proof. reflexivity. Qed.

Lemma for_each_cons {A} (x : A) xs body fs :
  for_each (x :: xs) body fs
  = match body x fs with
    | (Ok _, fs', ev) =>
        match for_each xs body fs' with (r, fs'', ev') => (r, fs'', ev ++ ev') end
    | (Raise e, fs', ev) => (Raise e, fs', ev)
    end.
Proof. reflexivity. Qed.

(** A loop over [xs ++ ys] is the loop over [xs], then the loop over [ys]
    unless the first one raised. *)
Lemma for_each_app {A} (xs ys : list A) body fs :
  for_each (xs ++ ys) body fs
  = match for_each xs body fs with
    | (Ok _, fs', ev) =>
        match for_each ys body fs' with (r, fs'', ev') => (r, fs'', ev ++ ev') end
    | (Raise e, fs', ev) => (Raise e, fs', ev)
    end.
Proof.
  revert fs. induction xs as [|x xs IH]; intros fs.
  - simpl. destruct (for_each ys body fs) as [[r fs'] ev]. reflexivity.
  - change ((x :: xs) ++ ys) with (x :: (xs ++ ys)). rewrite !for_each_cons.
    destruct (body x fs) as [[[[]|e] fs1] ev1]; [|reflexivity].
    rewrite IH. destruct (for_each xs body fs1) as [[[[]|e] fs2] ev2]; [|reflexivity].
    destruct (for_each ys body fs2) as [[r fs3] ev3]. rewrite app_assoc. reflexivity.
Qed.

Lemma for_each_two {A} (a b : A) body fs :
  for_each [a; b] body fs
  = match body a fs with
    | (Ok _, fs', ev) =>
        match body b fs' with (r, fs'', ev') => (r, fs'', ev ++ ev') end
    | (Raise e, fs', ev) => (Raise e, fs', ev)
    end.
Proof.
  rewrite for_each_cons.
  destruct (body a fs) as [[[[]|e] fs1] ev1]; [|reflexivity].
  rewrite for_each_cons.
  destruct (body b fs1) as [[[[]|e] fs2] ev2]; cbn [for_each ret];
    rewrite ?app_nil_r; reflexivity.
Qed.

(** The [continue] of [main] drops the skipped paths from the loop. *)
Lemma for_each_skip (xs : list path) (body : path -> M unit) fs :
  for_each xs (fun p => if skipped p then ret tt else body p) fs
  = for_each (List.filter (fun p => negb (skipped p)) xs) body fs.
Proof.
  revert fs. induction xs as [|x xs IH]; intros fs; [reflexivity|].
  rewrite for_each_cons. cbn [List.filter]. destruct (skipped x); cbn [negb].
  - cbn [ret]. rewrite IH.
    destruct (for_each _ body fs) as [[r fs'] ev]. reflexivity.
  - rewrite for_each_cons. destruct (body x fs) as [[[[]|e] fs1] ev1]; [|reflexivity].
    rewrite IH. reflexivity.
Qed.

(** [main] prints its message, if the standard output takes it, and runs
    [process_file] over [targets]. *)
Lemma main_run flag today tree fs :
  main flag today tree fs
  = if stdout fs (counter_message flag)
    then match for_each (targets tree) (process_file flag today) fs with
         | (r, fs', ev) => (r, fs', Printed (counter_message flag) :: ev)
         end
    else (Raise (StdoutError (counter_message flag)), fs, []).
Proof.
  unfold main, targets. rewrite bind_run. unfold print at 1.
  destruct (stdout fs (counter_message flag)); [|reflexivity].
  rewrite List.filter_app, for_each_app, for_each_two, for_each_skip.
  destruct (for_each _ (process_file flag today) fs) as [[[[]|e] fs1] ev1]; [|reflexivity].
  rewrite for_each_skip.
  destruct (for_each _ (process_file flag today) fs1) as [[r fs2] ev2]. reflexivity.
Qed.

(** *** Paths and the files they lead to *)

Lemma lookup_world p (w : world) f :
  w !! p = Some f <-> exists i, names w !! p = Some i /\ files w !! i = Some f.
Proof.
  unfold lookup at 1, world_lookup. destruct (names w !! p) as [i|]; cbn.
  - split; [by exists i | by intros (j & [= <-] & H)].
  - split; [done | by intros (j & [=] & _)].
Qed.

Lemma lookup_world_names p (w w' : world) :
  names w' = names w ->
  (forall i, names w !! p = Some i -> files w' !! i = files w !! i) ->
  w' !! p = w !! p.
Proof.
  intros Hn Hf. unfold lookup, world_lookup. rewrite Hn.
  destruct (names w !! p) as [i|] eqn:E; cbn; [by apply Hf | done].
Qed.

Lemma set_file_existing p f w i :
  names w !! p = Some i ->
  set_file p f w = mk_world (names w) (<[i := f]> (files w)) (stdout w).
Proof. intros H. unfold set_file. rewrite H. reflexivity. Qed.

(** The file the path leads to after [set_file]. *)
Lemma lookup_set_file p f w : set_file p f w !! p = Some f.
Proof.
  apply lookup_world. unfold set_file.
  destruct (names w !! p) as [i|] eqn:E; cbn [names files].
  - exists i. by rewrite lookup_insert_eq.
  - eexists. by rewrite !lookup_insert_eq.
Qed.

(** *** One file *)

Lemma process_file_run flag today p fs :
  process_file flag today p fs = process_file_outcome flag today p fs.
Proof.
  unfold process_file, process_file_outcome, read_text, write_text, print.
  rewrite !bind_run. simpl.
  destruct (fs !! p) as [[[raw|] w]|] eqn:Hp; simpl; try reflexivity.
  destruct (render flag today p (universal_newlines raw)) as [[new|]|]; simpl;
    try reflexivity.
  destruct (str_eqb new (universal_newlines raw)); simpl; [reflexivity|].
  rewrite !bind_run. simpl. rewrite Hp. simpl.
  destruct w; simpl; [|reflexivity].
  destruct (encodable new); simpl; [|reflexivity].
  replace (stdout (set_file p (mk_file (Some new) true) fs)) with (stdout fs)
    by (unfold set_file; destruct (names fs !! p); reflexivity).
  destruct (stdout fs (updated_notice p)); reflexivity.
Qed.

Lemma render_untracked flag today p content :
  path_suffix p <> txt ".swift" -> path_suffix p <> txt ".md" ->
  render flag today p content = None.
Proof.
  intros H1 H2. unfold render, str_eqb.
  rewrite !bool_decide_eq_false_2 by assumption. reflexivity.
Qed.

Lemma render_swift flag today p content :
  path_suffix p = txt ".swift" ->
  render flag today p content
  = Some (update_swift_file flag today content (path_name p)).
Proof.
  intros Hs. unfold render, str_eqb. rewrite Hs.
  rewrite bool_decide_eq_true_2 by reflexivity. reflexivity.
Qed.

Lemma render_md flag today p content :
  path_suffix p = txt ".md" ->
  render flag today p content
  = Some (update_markdown_file flag today content (path_name p)).
Proof.
  intros Hs. unfold render, str_eqb. rewrite Hs.
  rewrite bool_decide_eq_false_2 by (intros H; vm_compute in H; discriminate).
  rewrite bool_decide_eq_true_2 by reflexivity. reflexivity.
Qed.

Ltac outcome_cases :=
  unfold process_file_outcome, str_eqb;
  repeat case_match; intros ?; simplify_eq/=.

Ltac in_events :=
  repeat (rewrite elem_of_cons in * || rewrite elem_of_nil in *); naive_solver.

(** *** Confinement *)

Section Confinement.

Variable P : path -> Prop.

Lemma confined_ret {A} (a : A) : confined P (ret a).
Proof.
  intros fs. repeat split; try done. intros e p He. simpl in He.
  by apply elem_of_nil in He.
Qed.

Lemma confined_bind {A B} (m : M A) (k : A -> M B) :
  confined P m -> (forall a, confined P (k a)) -> confined P (m ≫= k).
Proof.
  intros Hm Hk fs. rewrite bind_run.
  destruct (Hm fs) as (Hn & Ho & Hd & Hf & He).
  destruct (m fs) as [[[a|e] fs'] ev]; simpl in *; [|done].
  destruct (Hk a fs') as (Hn' & Ho' & Hd' & Hf' & He').
  destruct (k a fs') as [[r fs''] ev']; simpl in *.
  split; [congruence|]. split; [congruence|]. split; [congruence|]. split.
  - intros i Hi. rewrite Hf', Hf; [done|exact Hi|]. rewrite Hn. exact Hi.
  - intros e p [H|H]%elem_of_app; eauto.
Qed.

Lemma confined_for_each {A} (xs : list A) body :
  (forall x, x ∈ xs -> confined P (body x)) -> confined P (for_each xs body).
Proof.
  induction xs as [|x xs IH]; intros Hb; [apply confined_ret|].
  apply (confined_bind (body x) (fun _ => for_each xs body)).
  - apply Hb. left.
  - intros _. apply IH. intros y Hy. apply Hb. by right.
Qed.

End Confinement.

Lemma confined_weaken (P Q : path -> Prop) {A} (m : M A) :
  (forall p, P p -> Q p) -> confined P m -> confined Q m.
Proof.
  intros HPQ Hm fs. destruct (Hm fs) as (Hn & Ho & Hd & Hf & He).
  repeat split; try done.
  - intros i Hi. apply Hf. intros p Hp. apply Hi, HPQ, Hp.
  - intros e p H1 H2. eapply HPQ, He; eassumption.
Qed.

(** [set_file] on a path that leads to a file changes that file only. *)
Lemma set_file_confined p f g (fs : world) :
  fs !! p = Some g ->
  names (set_file p f fs) = names fs
  /\ stdout (set_file p f fs) = stdout fs
  /\ dom (files (set_file p f fs)) = dom (files fs)
  /\ (forall i, names fs !! p <> Some i -> files (set_file p f fs) !! i = files fs !! i).
Proof.
  intros (j & Hj & Hg)%lookup_world. rewrite (set_file_existing p f fs j Hj).
  cbn [names stdout files]. repeat split.
  - rewrite dom_insert_L. assert (j ∈ dom (files fs)) by (apply elem_of_dom; eauto).
    set_solver.
  - intros i Hi. apply lookup_insert_ne. congruence.
Qed.

(** [process_file] works on its own path only. *)
Lemma confined_process_file flag today p :
  confined (fun q => q = p) (process_file flag today p).
Proof.
  intros fs. rewrite process_file_run. unfold process_file_outcome.
  destruct (fs !! p) as [[[raw|] w]|] eqn:Hp; cbn [fst snd];
    [|repeat split; try done; intros e q He Hq; in_events..].
  destruct (set_file_confined p (mk_file (Some []) true) _ fs Hp) as (E1 & E2 & E3 & E4).
  destruct (render flag today p (universal_newlines raw)) as [[new|]|]; cbn [fst snd];
    [|repeat split; try done; intros e q He Hq; in_events..].
  destruct (set_file_confined p (mk_file (Some new) true) _ fs Hp) as (N1 & N2 & N3 & N4).
  repeat case_match; cbn [fst snd]; repeat split; try done;
    try (intros i Hi; first [apply E4 | apply N4]; apply Hi; reflexivity);
    intros e q He Hq; in_events.
Qed.

(** [main] works on its targets only. *)
Lemma confined_main flag today tree :
  confined (fun p => p ∈ targets tree) (main flag today tree).
Proof.
  intros fs. rewrite main_run.
  destruct (stdout fs (counter_message flag)); cbn [fst snd];
    [|repeat split; try done; intros e q He; by apply elem_of_nil in He].
  destruct (confined_for_each (fun p => p ∈ targets tree) (targets tree)
              (process_file flag today)) with (fs := fs) as (Hn & Ho & Hd & Hf & He).
  { intros x Hx. eapply confined_weaken, confined_process_file. by intros ? ->. }
  destruct (for_each (targets tree) (process_file flag today) fs) as [[r fs'] ev].
  cbn [fst snd] in *. repeat split; try done.
  intros e q [->|H]%elem_of_cons Hq; [discriminate|]. eapply He; eassumption.
Qed.

Lemma skipped_not_target tree p : skipped p = true -> p ∉ targets tree.
Proof.
  intros Hs Hin%list_elem_of_In. unfold targets in Hin.
  apply filter_In in Hin as [_ Hn]. rewrite Hs in Hn. discriminate.
Qed.

(** What [main] leaves alone: a path that is no target has no event, and
    the file it leads to is what it was unless a target leads to it too. *)
Lemma main_frame flag today tree fs q :
  q ∉ targets tree ->
  let run := main flag today tree fs in
  (forall e, e ∈ run.2 -> event_path e <> Some q)
  /\ names run.1.2 = names fs
  /\ ((forall t i, t ∈ targets tree -> names fs !! t = Some i -> names fs !! q <> Some i) ->
      run.1.2 !! q = fs !! q).
Proof.
  intros Hq. cbv zeta. destruct (confined_main flag today tree fs) as (Hn & _ & _ & Hf & He).
  split; [|split; [exact Hn|]].
  - intros e Hin Hp. apply Hq. eapply He; eassumption.
  - intros Hl. apply lookup_world_names; [exact Hn|].
    intros i Hi. apply Hf. intros t Ht Hti. exact (Hl t i Ht Hti Hi).
Qed.

(** C7, as stated: no file of an excluded path is modified.  Where a
    source file at the root and a path below [.git] lead to one file, the
    run stamps that file: its path below [.git] is never opened, and its
    content changes all the same. *)
Lemma linked_file_rewritten :
  let run := main false sample_day linked_tree linked_files in
  skipped hidden_path = true
  /\ run.1.1 = Ok tt
  /\ linked_files !! hidden_path = Some (mk_file (Some foo_call) true)
  /\ run.1.2 !! hidden_path = Some (mk_file (Some link_stamped) true)
  /\ run.1.2 !! hidden_path <> linked_files !! hidden_path.
Proof.
  cbv zeta.
  split; [vm_compute; reflexivity|].
  split; [vm_compute; reflexivity|].
  split; [vm_compute; reflexivity|].
  split; [vm_compute; reflexivity|].
  vm_compute. discriminate.
Qed.

(** C7, amended.  A path with a part that starts with a dot or is [build],
    [Pods] or [Carthage] is skipped before [process_file]: in a run of
    [main], on any tree and any files and also when the run raises, no
    event (open for reading, open for writing, write) is about it, and the
    file it leads to is what it was unless one of the paths handed to
    [process_file] leads to that file too. *)
Theorem excluded_paths_untouched flag today tree fs p :
  skipped p = true ->
  let run := main flag today tree fs in
  (forall e, e ∈ run.2 -> event_path e <> Some p)
  /\ names run.1.2 = names fs
  /\ ((forall t i, t ∈ targets tree -> names fs !! t = Some i -> names fs !! p <> Some i) ->
      run.1.2 !! p = fs !! p).
Proof. intros Hs. apply main_frame, skipped_not_target, Hs. Qed.

Lemma sample_targets :
  targets sample_tree = [at_root a_swift; broken_path; at_root (txt "notes.md")].
Proof. vm_compute. reflexivity. Qed.

Lemma excluded_paths_untouched_witness :
  let run := main false sample_day sample_tree sample_files in
  skipped hidden_path = true
  /\ (forall e, e ∈ run.2 -> event_path e <> Some hidden_path)
  /\ names run.1.2 = names sample_files
  /\ run.1.2 !! hidden_path = sample_files !! hidden_path.
Proof.
  cbv zeta.
  destruct (excluded_paths_untouched false sample_day sample_tree sample_files
              hidden_path eq_refl) as (H1 & H2 & H3).
  split; [reflexivity|]. split; [exact H1|]. split; [exact H2|].
  apply H3. intros t i Ht Hi. rewrite sample_targets in Ht.
  assert (Hh : names sample_files !! hidden_path = Some 1%nat) by (vm_compute; reflexivity).
  rewrite Hh. intros [= <-].
  repeat (apply elem_of_cons in Ht as [->|Ht]; [vm_compute in Hi; discriminate|]).
  by apply elem_of_nil in Ht.
Defined.

(** *** The effect of [process_file] *)

Lemma outcome_untracked flag today p fs :
  path_suffix p <> txt ".swift" -> path_suffix p <> txt ".md" ->
  (process_file_outcome flag today p fs).1.2 = fs
  /\ (process_file_outcome flag today p fs).2 = [OpenRead p].
Proof.
  intros H1 H2. unfold process_file_outcome.
  destruct (fs !! p) as [[[raw|] w]|]; [|by split..].
  rewrite render_untracked by assumption. by split.
Qed.

Lemma outcome_tracked flag today p fs f raw new_content :
  fs !! p = Some f -> data f = Some raw ->
  render flag today p (universal_newlines raw) = Some (Some new_content) ->
  let run := process_file_outcome flag today p fs in
  let content := universal_newlines raw in
  (OpenWrite p ∈ run.2 <-> new_content <> content)
  /\ (new_content = content -> run.1.1 = Ok tt /\ run.1.2 = fs /\ run.2 = [OpenRead p])
  /\ (new_content <> content -> writable f = true -> encodable new_content = true ->
        run.1.2 = set_file p (mk_file (Some new_content) true) fs
        /\ (stdout fs (updated_notice p) = true ->
              run.1.1 = Ok tt
              /\ run.2 = [OpenRead p; OpenWrite p; Wrote p new_content;
                          Printed (updated_notice p)])
        /\ (stdout fs (updated_notice p) = false ->
              run.1.1 = Raise (StdoutError (updated_notice p))
              /\ run.2 = [OpenRead p; OpenWrite p; Wrote p new_content])).
Proof.
  intros Hf Hd Hr. cbv zeta. unfold process_file_outcome. rewrite Hf.
  destruct f as [d w]. cbn [data writable] in *. subst d. rewrite Hr. unfold str_eqb.
  destruct (decide (new_content = universal_newlines raw)) as [->|Hne].
  - rewrite bool_decide_eq_true_2 by reflexivity. cbn [fst snd].
    split; [split; [in_events | done]|]. split; [done|]. done.
  - rewrite bool_decide_eq_false_2 by exact Hne.
    split; [split; [done|]|].
    + intros _. repeat case_match; cbn [fst snd]; in_events.
    + split; [done|]. intros _ -> ->. cbn [negb].
      destruct (stdout fs (updated_notice p)); cbn [fst snd]; repeat split; done.
Qed.

Lemma outcome_notice flag today p fs :
  let run := process_file_outcome flag today p fs in
  (forall s, Printed s ∈ run.2 ->
     s = updated_notice p /\ exists t, Wrote p t ∈ run.2)
  /\ (forall t, Wrote p t ∈ run.2 -> stdout fs (updated_notice p) = true ->
        Printed (updated_notice p) ∈ run.2).
Proof.
  cbv zeta. unfold process_file_outcome.
  repeat case_match; cbn [fst snd]; (split; [intros s Hs | intros t Ht Ho]);
    try (exfalso; in_events); try congruence.
  - split; [in_events|]. eexists. apply elem_of_cons. right. apply elem_of_cons. right. left.
  - in_events.
Qed.

(** C8, as stated: the notice is emitted exactly when the file is written.
    A document whose name holds a lone surrogate, with a standard output
    that refuses it: the document is written, [print] raises, and no notice
    is printed. *)
Lemma notice_lost_after_write :
  let p := at_root surrogate_doc in
  let run := process_file false sample_day p (one_file surrogate_doc notes) in
  path_suffix p = txt ".md"
  /\ run.1.1 = Raise (StdoutError (txt "Updated " ++ path_str p))
  /\ run.2 = [OpenRead p; OpenWrite p; Wrote p notes_stamped]
  /\ run.1.2 !! p = Some (mk_file (Some notes_stamped) true).
Proof.
  cbv zeta.
  split; [vm_compute; reflexivity|].
  split; [vm_compute; reflexivity|].
  split; [vm_compute; reflexivity|].
  vm_compute. reflexivity.
Qed.

(** C8, amended.  [process_file] on a path [p]: with another suffix than
    [.swift] and [.md] the world is what it was and the only event is the
    opening of [p] for reading.  With the suffix [.swift] the text of
    [update_swift_file], with [.md] the text of [update_markdown_file], on
    the content as read, decides: [p] is opened for writing exactly when
    that text differs from the content; an equal text leaves the world
    alone; a different one becomes the content of the file when the write
    goes through, and then the notice [Updated] with the path is printed if
    the standard output takes it, and [print] raises if not.  Nothing but
    that notice is ever printed, and only after a write. *)
Theorem process_file_effect flag today p fs :
  let run := process_file flag today p fs in
  let notice := txt "Updated " ++ path_str p in
  (path_suffix p <> txt ".swift" -> path_suffix p <> txt ".md" ->
     run.1.2 = fs /\ run.2 = [OpenRead p])
  /\ (forall f raw rendered,
        fs !! p = Some f -> data f = Some raw ->
        (path_suffix p = txt ".swift"
         /\ update_swift_file flag today (universal_newlines raw) (path_name p)
            = Some rendered)
        \/ (path_suffix p = txt ".md"
            /\ update_markdown_file flag today (universal_newlines raw) (path_name p)
               = Some rendered) ->
        (OpenWrite p ∈ run.2 <-> rendered <> universal_newlines raw)
        /\ (rendered = universal_newlines raw ->
              run.1.1 = Ok tt /\ run.1.2 = fs /\ run.2 = [OpenRead p])
        /\ (rendered <> universal_newlines raw ->
            writable f = true -> encodable rendered = true ->
              run.1.2 = set_file p (mk_file (Some rendered) true) fs
              /\ (stdout fs notice = true ->
                    run.1.1 = Ok tt
                    /\ run.2 = [OpenRead p; OpenWrite p; Wrote p rendered; Printed notice])
              /\ (stdout fs notice = false ->
                    run.1.1 = Raise (StdoutError notice)
                    /\ run.2 = [OpenRead p; OpenWrite p; Wrote p rendered])))
  /\ (forall s, Printed s ∈ run.2 -> s = notice /\ exists t, Wrote p t ∈ run.2)
  /\ (forall t, Wrote p t ∈ run.2 -> stdout fs notice = true -> Printed notice ∈ run.2).
Proof.
  cbv zeta. rewrite process_file_run.
  split; [apply outcome_untracked|]. split; [|apply outcome_notice].
  intros f raw rendered Hf Hd Hr.
  apply (outcome_tracked flag today p fs f raw rendered Hf Hd).
  destruct Hr as [[Hs <-]|[Hs <-]]; [by apply render_swift | by apply render_md].
Qed.

Lemma process_file_effect_witness :
  let p := at_root (txt "notes.md") in
  let run := process_file false sample_day p (one_file (txt "notes.md") crlf_doc) in
  run.1.1 = Ok tt
  /\ run.1.2 = set_file p (mk_file (Some crlf_stamped) true)
                 (one_file (txt "notes.md") crlf_doc)
  /\ run.2 = [OpenRead p; OpenWrite p; Wrote p crlf_stamped;
              Printed (txt "Updated /Users/mpy/CascadeProjects/rBUM/notes.md")].
Proof.
  cbv zeta.
  destruct (process_file_effect false sample_day (at_root (txt "notes.md"))
              (one_file (txt "notes.md") crlf_doc)) as (_ & H & _).
  destruct (H (mk_file (Some crlf_doc) true) crlf_doc crlf_stamped) as (_ & _ & Hw).
  - apply lookup_world. exists 0%nat. split; [apply lookup_singleton_eq|].
    apply lookup_singleton_eq.
  - reflexivity.
  - right. split; vm_compute; reflexivity.
  - destruct Hw as (Hfs & Hok & _).
    + intros E. apply (f_equal length) in E. vm_compute in E. discriminate.
    + reflexivity.
    + vm_compute. reflexivity.
    + destruct Hok as [Hr Hev]; [vm_compute; reflexivity|].
      split; [exact Hr|]. split; [exact Hfs|]. exact Hev.
Defined.

(** *** The whole run *)

(** C1.  A tree with the one file [A.swift] holding [foo()]: the first run
    puts the header in front, the second run replaces its first four lines
    by a new header and leaves the other three, so the content after the
    second run is not the content after the first. *)
Theorem second_run_changes_source_file :
  let first := main false sample_day [[a_swift]] (one_file a_swift foo_call) in
  let second := main false sample_day [[a_swift]] first.1.2 in
  first.1.1 = Ok tt
  /\ first.1.2 !! at_root a_swift = Some (mk_file (Some once_stamped) true)
  /\ second.1.1 = Ok tt
  /\ second.1.2 !! at_root a_swift = Some (mk_file (Some twice_stamped) true)
  /\ second.2
     = Printed (counter_message false) :: update_events (at_root a_swift) twice_stamped
  /\ once_stamped <> twice_stamped.
Proof.
  cbv zeta.
  split; [vm_compute; reflexivity|].
  split; [vm_compute; reflexivity|].
  split; [vm_compute; reflexivity|].
  split; [vm_compute; reflexivity|].
  split; [vm_compute; reflexivity|].
  vm_compute. discriminate.
Qed.

(** C9, as stated: the failing file is untouched.  A source file whose name
    holds a lone surrogate is read, opened for writing, which empties it,
    and the write raises. *)
Lemma failing_file_emptied :
  let before := one_file surrogate_name foo_call in
  let run := main false sample_day [[surrogate_name]] before in
  run.1.1 = Raise (UnicodeEncodeError (at_root surrogate_name))
  /\ before !! at_root surrogate_name = Some (mk_file (Some foo_call) true)
  /\ run.1.2 !! at_root surrogate_name = Some (mk_file (Some []) true)
  /\ run.1.2 !! at_root surrogate_name <> before !! at_root surrogate_name.
Proof.
  cbv zeta.
  split; [vm_compute; reflexivity|].
  split; [vm_compute; reflexivity|].
  split; [vm_compute; reflexivity|].
  vm_compute. discriminate.
Qed.

(** What the world is after [process_file] raised. *)
Lemma outcome_raised flag today p fs e fs' ev :
  process_file_outcome flag today p fs = (Raise e, fs', ev) ->
  match e with
  | UnicodeEncodeError _ => fs' = set_file p (mk_file (Some []) true) fs
  | StdoutError _ =>
      exists new_content,
        Wrote p new_content ∈ ev
        /\ fs' = set_file p (mk_file (Some new_content) true) fs
  | _ => fs' = fs
  end.
Proof.
  outcome_cases; try done.
  all: try match goal with
           | H : render_exn _ _ = _ |- _ =>
               unfold render_exn in H; destruct (swift_counter_str _ _); discriminate
           end.
  eexists. split; [|reflexivity]. in_events.
Qed.

(** C9, amended.  When [process_file] raises on the path [p] after the
    paths [pre] went through, [main] raises the same exception there: the
    world is the one the loop over [pre] left, but for the file [p] leads
    to, and nothing happens for the paths after [p].  The file of [p] is
    untouched too when reading, opening for writing or the renderer
    raised; it is left empty when the write raised the encoding error, and
    it holds the new content when the write went through and [print]
    raised. *)
Theorem failure_aborts_run flag today tree fs pre p post fs1 ev1 e fs2 ev2 :
  stdout fs (counter_message flag) = true ->
  targets tree = pre ++ p :: post ->
  for_each pre (process_file flag today) fs = (Ok tt, fs1, ev1) ->
  process_file flag today p fs1 = (Raise e, fs2, ev2) ->
  main flag today tree fs
    = (Raise e, fs2, Printed (counter_message flag) :: ev1 ++ ev2)
  /\ names fs2 = names fs1
  /\ (forall i, names fs1 !! p <> Some i -> files fs2 !! i = files fs1 !! i)
  /\ match e with
     | UnicodeEncodeError _ => fs2 = set_file p (mk_file (Some []) true) fs1
     | StdoutError _ =>
         exists new_content,
           Wrote p new_content ∈ ev2
           /\ fs2 = set_file p (mk_file (Some new_content) true) fs1
     | _ => fs2 = fs1
     end.
Proof.
  intros Ho Ht Hpre Hp. split; [|split; [|split]].
  - rewrite main_run, Ho, Ht, for_each_app, Hpre, for_each_cons, Hp. reflexivity.
  - destruct (confined_process_file flag today p fs1) as (Hn & _). rewrite Hp in Hn.
    exact Hn.
  - intros i Hi.
    destruct (confined_process_file flag today p fs1) as (_ & _ & _ & Hf & _).
    rewrite Hp in Hf. apply Hf. by intros q ->.
  - rewrite process_file_run in Hp. by apply outcome_raised in Hp.
Qed.

Lemma sample_render_a :
  render false sample_day (at_root a_swift) (universal_newlines foo_call)
  = Some (Some once_stamped).
Proof. vm_compute. reflexivity. Qed.

Lemma sample_first_file :
  for_each [at_root a_swift] (process_file false sample_day) sample_files
  = (Ok tt, sample_files_after_a, sample_events_a).
Proof.
  rewrite for_each_cons, process_file_run. unfold process_file_outcome.
  replace (sample_files !! at_root a_swift) with (Some (mk_file (Some foo_call) true))
    by (vm_compute; reflexivity).
  rewrite sample_render_a.
  replace (str_eqb once_stamped (universal_newlines foo_call)) with false
    by (vm_compute; reflexivity).
  replace (encodable once_stamped) with true by (vm_compute; reflexivity).
  replace (stdout sample_files (updated_notice (at_root a_swift))) with true
    by (vm_compute; reflexivity).
  reflexivity.
Qed.

Lemma sample_broken_file :
  process_file false sample_day broken_path sample_files_after_a
  = (Raise (ReadError broken_path), sample_files_after_a, [OpenRead broken_path]).
Proof.
  rewrite process_file_run. unfold process_file_outcome.
  replace (sample_files_after_a !! broken_path) with (Some (mk_file None true))
    by (vm_compute; reflexivity).
  reflexivity.
Qed.

Lemma failure_aborts_run_witness :
  stdout sample_files (counter_message false) = true
  /\ targets sample_tree
     = [at_root a_swift] ++ broken_path :: [at_root (txt "notes.md")]
  /\ for_each [at_root a_swift] (process_file false sample_day) sample_files
     = (Ok tt, sample_files_after_a, sample_events_a)
  /\ process_file false sample_day broken_path sample_files_after_a
     = (Raise (ReadError broken_path), sample_files_after_a, [OpenRead broken_path])
  /\ (main false sample_day sample_tree sample_files
      = (Raise (ReadError broken_path), sample_files_after_a,
         Printed (counter_message false) :: sample_events_a ++ [OpenRead broken_path])
      /\ names sample_files_after_a = names sample_files_after_a
      /\ (forall i, names sample_files_after_a !! broken_path <> Some i ->
            files sample_files_after_a !! i = files sample_files_after_a !! i)
      /\ sample_files_after_a = sample_files_after_a).
Proof.
  assert (H0 : stdout sample_files (counter_message false) = true)
    by (vm_compute; reflexivity).
  split; [exact H0|]. split; [exact sample_targets|]. split; [exact sample_first_file|].
  split; [exact sample_broken_file|].
  exact (failure_aborts_run false sample_day sample_tree sample_files
           [at_root a_swift] broken_path [at_root (txt "notes.md")]
           sample_files_after_a sample_events_a (ReadError broken_path)
           sample_files_after_a [OpenRead broken_path]
           H0 sample_targets sample_first_file sample_broken_file).
Defined.

(** ** Further properties of the run *)

(** X1.  [main] works on its targets only: no event is about any other path
    (a file with another extension, a file outside the root, a skipped
    file), and the file such a path leads to is what it was after the run
    unless a target leads to that file too. *)
Theorem only_targets_touched flag today tree fs q :
  q ∉ targets tree ->
  let run := main flag today tree fs in
  (forall e, e ∈ run.2 -> event_path e <> Some q)
  /\ ((forall t i, t ∈ targets tree -> names fs !! t = Some i -> names fs !! q <> Some i) ->
      run.1.2 !! q = fs !! q).
Proof.
  intros Hq. destruct (main_frame flag today tree fs q Hq) as (H1 & _ & H2). by split.
Qed.

Lemma only_targets_touched_witness :
  let run := main false sample_day plain_tree plain_files in
  (text_path ∉ targets plain_tree)
  /\ plain_files !! text_path = Some (mk_file (Some foo_call) true)
  /\ run.1.1 = Ok tt
  /\ (forall e, e ∈ run.2 -> event_path e <> Some text_path)
  /\ run.1.2 !! text_path = plain_files !! text_path.
Proof.
  cbv zeta.
  assert (Ht : targets plain_tree = [at_root a_swift]) by (vm_compute; reflexivity).
  assert (H : text_path ∉ targets plain_tree).
  { rewrite Ht. intros [E|Hin]%elem_of_cons; [vm_compute in E; discriminate|].
    by apply elem_of_nil in Hin. }
  destruct (only_targets_touched false sample_day plain_tree plain_files text_path H)
    as (H1 & H2).
  split; [exact H|]. split; [vm_compute; reflexivity|].
  split; [vm_compute; reflexivity|]. split; [exact H1|].
  apply H2. intros t i Hin Hi. rewrite Ht in Hin.
  apply elem_of_cons in Hin as [->|Hin]; [|by apply elem_of_nil in Hin].
  vm_compute in Hi. injection Hi as <-. vm_compute. discriminate.
Defined.

(** X2.  A run neither creates nor deletes a file or a name: the names, the
    set of files and so the paths that lead to a file are the same after
    [main] as before, also when it raises. *)
Theorem run_keeps_file_set flag today tree fs :
  let fs' := (main flag today tree fs).1.2 in
  names fs' = names fs
  /\ dom (files fs') = dom (files fs)
  /\ forall p, is_Some (fs' !! p) <-> is_Some (fs !! p).
Proof.
  cbv zeta. destruct (confined_main flag today tree fs) as (Hn & _ & Hd & _).
  split; [exact Hn|]. split; [exact Hd|].
  intros p. unfold lookup, world_lookup. rewrite Hn.
  destruct (names fs !! p) as [i|]; cbn; [|done].
  rewrite <- !elem_of_dom, Hd. done.
Qed.

(** X3.  The parts of the project root are not excluded, so a path below
    the root is skipped exactly when one of its parts after the root is
    excluded; and everything below a skipped path is skipped. *)
Theorem skipped_below_root (rel rest : path) :
  skipped (project_root ++ rel) = existsb excluded_part rel
  /\ (skipped (project_root ++ rel) = true ->
      skipped (project_root ++ rel ++ rest) = true).
Proof.
  assert (H : forall r, skipped (project_root ++ r) = existsb excluded_part r).
  { intros r. unfold skipped. rewrite existsb_app.
    replace (existsb excluded_part project_root) with false by (vm_compute; reflexivity).
    reflexivity. }
  split; [apply H|]. rewrite !H, existsb_app. intros ->. reflexivity.
Qed.

Lemma skipped_below_root_witness :
  skipped (project_root ++ [txt "Pods"]) = existsb excluded_part [txt "Pods"]
  /\ (skipped (project_root ++ [txt "Pods"]) = true ->
      skipped (project_root ++ [txt "Pods"] ++ [txt "Lib"; txt "A.swift"]) = true).
Proof. exact (skipped_below_root [txt "Pods"] [txt "Lib"; txt "A.swift"]). Defined.

(** *** Names and suffixes *)

Lemma startswith_app p t : startswith p (p ++ t) = true.
Proof. induction p as [|a p IH]; [reflexivity|]. cbn [app startswith]. by rewrite N.eqb_refl. Qed.

Lemma startswith_split p s : startswith p s = true -> exists t, s = p ++ t.
Proof.
  revert s. induction p as [|a p IH]; intros s H; [by exists s|].
  destruct s as [|b s]; [discriminate|]. cbn [startswith] in H.
  apply andb_prop in H as [Hab Hs]. apply N.eqb_eq in Hab as ->.
  destruct (IH s Hs) as [t ->]. by exists t.
Qed.

Lemma endswith_split p s : endswith p s = true -> exists t, s = t ++ p.
Proof.
  unfold endswith. intros [t Ht]%startswith_split. exists (rev t).
  rewrite <- (rev_involutive s), Ht, rev_app_distr, rev_involutive. reflexivity.
Qed.

Lemma rfind_none c s i : lacks c s = true -> rfind c s i = None.
Proof.
  revert i. induction s as [|x s IH]; intros i; [reflexivity|].
  rewrite lacks_cons. intros [Hx Hs]%andb_prop. cbn [rfind].
  rewrite (IH _ Hs). destruct (x =? c); [discriminate | reflexivity].
Qed.

(** The last occurrence of [c] in [pre ++ c :: e] when [e] has none. *)
Lemma rfind_last c pre e i :
  lacks c e = true -> rfind c (pre ++ c :: e) i = Some (i + length pre)%nat.
Proof.
  intros He. revert i. induction pre as [|x pre IH]; intros i.
  - cbn [app rfind length]. rewrite (rfind_none _ _ _ He), N.eqb_refl.
    f_equal. lia.
  - cbn [app rfind length]. rewrite IH. f_equal. lia.
Qed.

(** A name that ends with a dot and an extension without dot, and does not
    start with a dot, has that suffix. *)
Lemma suffix_of_name (p : path) e :
  lacks 46 e = true -> e <> [] ->
  endswith (46 :: e) (path_name p) = true ->
  startswith (txt ".") (path_name p) = false ->
  path_suffix p = 46 :: e.
Proof.
  intros He Hne [pre Hn]%endswith_split Hdot. unfold path_suffix.
  rewrite Hn in *. rewrite (rfind_last 46 pre e 0 He). cbn [Nat.add].
  destruct pre as [|x pre].
  { cbn in Hdot. discriminate. }
  destruct e as [|y e]; [done|].
  rewrite length_app. cbn [length].
  replace (0 <? S (length pre))%nat with true by (symmetry; apply Nat.ltb_lt; lia).
  replace (S (length pre) <? S (length pre) + S (S (length e)) - 1)%nat with true
    by (symmetry; apply Nat.ltb_lt; lia).
  cbn [andb]. change (S (length pre)) with (length (x :: pre)).
  apply drop_app_length.
Qed.

Lemma path_name_in (p : path) : path_name p = [] \/ path_name p ∈ p.
Proof.
  unfold path_name. destruct p as [|a [|b p]]; [by left| |].
  - destruct (str_eqb a (txt "/")); [by left | right; left].
  - right. destruct (last (a :: b :: p)) as [l|] eqn:E.
    + apply last_Some in E as [l' ->]. simpl. apply elem_of_app. right. left.
    + apply last_None in E. discriminate.
Qed.

Lemma not_skipped_name (p : path) :
  skipped p = false -> startswith (txt ".") (path_name p) = false.
Proof.
  intros Hs. destruct (path_name_in p) as [->|Hin]; [reflexivity|].
  unfold skipped in Hs.
  destruct (startswith (txt ".") (path_name p)) eqn:E; [|reflexivity].
  assert (existsb excluded_part p = true); [|congruence].
  apply existsb_exists. exists (path_name p). split; [by apply list_elem_of_In|].
  unfold excluded_part. rewrite E. reflexivity.
Qed.

(** X4.  Every path [main] hands to [process_file] has the suffix [.swift]
    or [.md]: the last branch of the dispatch of [process_file], the plain
    [return], is never taken from [main]. *)
Theorem targets_are_tracked tree p :
  p ∈ targets tree ->
  path_suffix p = txt ".swift" \/ path_suffix p = txt ".md".
Proof.
  unfold targets. intros Hin%list_elem_of_In. apply filter_In in Hin as [Hin Hs].
  apply negb_true_iff in Hs. apply not_skipped_name in Hs.
  unfold rglob in Hin. apply in_app_or in Hin as [Hin|Hin];
    apply filter_In in Hin as [_ He]; [left | right];
    apply suffix_of_name; auto; discriminate.
Qed.

Lemma targets_are_tracked_witness :
  at_root a_swift ∈ targets sample_tree
  /\ (path_suffix (at_root a_swift) = txt ".swift"
      \/ path_suffix (at_root a_swift) = txt ".md").
Proof.
  assert (H : at_root a_swift ∈ targets sample_tree) by (vm_compute; left).
  split; [exact H|]. exact (targets_are_tracked sample_tree (at_root a_swift) H).
Defined.

(** ** The update counter *)

Lemma digits_acc_cons acc c s :
  digits_acc acc (c :: s) = digits_acc (10 * acc + default 0 (digit_value c)) s.
Proof. reflexivity. Qed.

Lemma digits_acc_uint d acc :
  digits_acc acc (uint_chars d)
  = match acc with
    | 0 => Pos.of_uint d
    | N.pos a => N.pos (Pos.of_uint_acc d a)
    end.
Proof.
  revert acc.
  induction d; intros acc; cbn [uint_chars Pos.of_uint Pos.of_uint_acc];
    [destruct acc; reflexivity|..];
    rewrite digits_acc_cons, IHd;
    match goal with
    | |- context [digit_value ?c] =>
        let v := eval vm_compute in (digit_value c) in
        change (digit_value c) with v
    end;
    cbn [default]; destruct acc as [|a]; try reflexivity;
    cbn [N.mul N.add]; f_equal; f_equal; lia.
Qed.

Lemma int_of_decimal n : int_of_digits (decimal n) = n.
Proof.
  unfold int_of_digits, decimal.
  change (fold_left _ (uint_chars (N.to_uint n)) 0) with (digits_acc 0 (uint_chars (N.to_uint n))).
  rewrite digits_acc_uint. apply DecimalN.Unsigned.of_to.
Qed.

Lemma uint_chars_decimal d : forallb isdecimal (uint_chars d) = true.
Proof. induction d; cbn [uint_chars forallb]; [reflexivity|..]; rewrite IHd; reflexivity. Qed.

Lemma decimal_nonempty n : exists c s, decimal n = c :: s.
Proof.
  unfold decimal. destruct n as [|p]; [by eexists _, _|].
  cbn [N.to_uint]. pose proof (DecimalPos.Unsigned.to_uint_nonnil p) as H.
  destruct (Pos.to_uint p); [done|..]; by eexists _, _.
Qed.

Lemma strip_prefix_none key s : startswith key s = false -> strip_prefix key s = None.
Proof.
  revert s. induction key as [|a key IH]; intros s; [discriminate|].
  destruct s as [|b s]; [reflexivity|]. cbn [startswith strip_prefix].
  destruct (a =? b); [apply IH | reflexivity].
Qed.

(** A pattern that starts with a literal does not match where the literal
    does not stand. *)
Lemma match_lit_fail adv key r s :
  startswith key s = false -> match_here adv (Cat (Lit key) r) s = None.
Proof.
  intros H. unfold match_here. cbn [mtch]. rewrite (strip_prefix_none _ _ H). reflexivity.
Qed.

Lemma contains_cons_false key c s :
  contains key (c :: s) = false -> startswith key (c :: s) = false /\ contains key s = false.
Proof. cbn [contains]. apply orb_false_elim. Qed.

Lemma contains_false_head key s : contains key s = false -> startswith key s = false.
Proof. destruct s; cbn [contains]; intros H; apply orb_false_elim in H as [H _]; exact H. Qed.

Lemma search_lit_none key r s i :
  contains key s = false -> re_search_from (Cat (Lit key) r) s i = None.
Proof.
  revert i. induction s as [|c s IH]; intros i H; cbn [re_search_from]; unfold re_match;
    rewrite (match_lit_fail _ _ _ _ (contains_false_head _ _ H)); [reflexivity|].
  apply IH. apply contains_cons_false in H as [_ H]. exact H.
Qed.

Lemma search_step r c s i :
  match_here false r (c :: s) = None ->
  re_search_from r (c :: s) i = re_search_from r s (S i).
Proof. intros H. cbn [re_search_from]. unfold re_match. rewrite H. reflexivity. Qed.

(** A key whose first character does not come again cannot start in [b]
    and end in a text that starts with that character. *)
Lemma startswith_tail_blocked a k b m :
  lacks a k = true -> startswith k (b ++ a :: m) = true -> startswith k b = true.
Proof.
  revert b. induction k as [|x k IH]; intros b Hk H; [reflexivity|].
  rewrite lacks_cons in Hk. apply andb_prop in Hk as [Hx Hk].
  destruct b as [|c b]; cbn [app startswith] in *.
  - destruct (x =? a); discriminate.
  - apply andb_prop in H as [-> H]. apply (IH b Hk H).
Qed.

Lemma startswith_no_straddle a k c b m :
  lacks a k = true ->
  startswith (a :: k) (c :: b) = false ->
  startswith (a :: k) ((c :: b) ++ a :: m) = false.
Proof.
  intros Hk H. cbn [app startswith] in *.
  destruct (a =? c); [|reflexivity]. cbn [andb] in *.
  destruct (startswith k (b ++ a :: m)) eqn:E; [|reflexivity].
  rewrite (startswith_tail_blocked a k b m Hk E) in H. discriminate.
Qed.

(** The search goes over a text without the literal to what follows, if
    that starts with the first character of the literal. *)
Lemma search_lit_skip a k r pre m i :
  lacks a k = true -> contains (a :: k) pre = false ->
  re_search_from (Cat (Lit (a :: k)) r) (pre ++ a :: m) i
  = re_search_from (Cat (Lit (a :: k)) r) (a :: m) (i + length pre).
Proof.
  intros Hk. revert i. induction pre as [|c pre IH]; intros i H.
  - cbn [app length]. f_equal. lia.
  - apply contains_cons_false in H as [H1 H2].
    replace (i + length (c :: pre))%nat with (S i + length pre)%nat
      by (cbn [length]; lia).
    rewrite <- (IH (S i) H2).
    apply search_step, match_lit_fail, startswith_no_straddle; assumption.
Qed.

(** The greedy star takes the whole run when what follows is not of the
    class. *)
Lemma greedy_star_run {A} p run rest (k : list N -> option A) x :
  forallb p run = true ->
  match rest with c :: _ => p c | [] => false end = false ->
  k rest = Some x ->
  greedy_star p (run ++ rest) k = Some x.
Proof.
  intros Hrun Hrest Hk. induction run as [|c run IH].
  - cbn [app]. destruct rest as [|c rest]; cbn [greedy_star]; [exact Hk|].
    rewrite Hrest. exact Hk.
  - cbn [forallb] in Hrun. apply andb_prop in Hrun as [Hc Hrun].
    cbn [app greedy_star]. rewrite Hc, (IH Hrun). reflexivity.
Qed.

Lemma count_match c digits rest :
  forallb isdecimal (c :: digits) = true ->
  match rest with d :: _ => isdecimal d | [] => false end = false ->
  re_match count_pattern (count_key ++ (c :: digits) ++ rest)
  = Some (rest, [(1%nat, c :: digits)]).
Proof.
  intros Hd Hrest. unfold re_match, match_here, count_pattern. cbn [mtch].
  fold count_key. rewrite strip_prefix_app.
  cbn [forallb] in Hd. apply andb_prop in Hd as [Hc Hs].
  cbn [app]. rewrite Hc.
  erewrite greedy_star_run; [reflexivity | exact Hs | exact Hrest |].
  cbn [andb]. do 3 f_equal.
  replace (length (c :: digits ++ rest) - length rest)%nat with (length (c :: digits))
    by (cbn [length]; rewrite length_app; lia).
  change (c :: digits ++ rest) with ((c :: digits) ++ rest).
  rewrite take_app_length. reflexivity.
Qed.

(** The search of [get_update_count] finds the first marker, and [int]
    reads its digits if they are not too many. *)
Lemma count_search pre c digits rest :
  contains count_key pre = false ->
  forallb isdecimal (c :: digits) = true ->
  match rest with d :: _ => isdecimal d | [] => false end = false ->
  get_update_count true (pre ++ count_key ++ (c :: digits) ++ rest)
  = if (length (c :: digits) <=? max_str_digits)%nat
    then Some (Some (int_of_digits (c :: digits) + 1))
    else None.
Proof.
  intros Hpre Hd Hrest. unfold get_update_count, re_search. cbn [negb].
  pose proof (count_match c digits rest Hd Hrest) as Hm.
  assert (P : count_pattern
              = Cat (Lit (85 :: txt "pdate count: ")) (Group 1 (Plus isdecimal)))
    by reflexivity.
  assert (E : count_key ++ (c :: digits) ++ rest
              = 85 :: (txt "pdate count: " ++ (c :: digits) ++ rest)) by reflexivity.
  rewrite E in *. rewrite P in *.
  rewrite search_lit_skip by (reflexivity || assumption).
  cbn [re_search_from]. rewrite Hm.
  change (default [] (group_of 1 [(1%nat, c :: digits)])) with (c :: digits).
  unfold int_of_text. destruct (length (c :: digits) <=? max_str_digits)%nat; reflexivity.
Qed.

Lemma count_search_decimal pre n rest :
  contains count_key pre = false ->
  match rest with d :: _ => isdecimal d | [] => false end = false ->
  get_update_count true (pre ++ count_key ++ decimal n ++ rest)
  = if (length (decimal n) <=? max_str_digits)%nat then Some (Some (n + 1)) else None.
Proof.
  intros Hpre Hrest. destruct (decimal_nonempty n) as (c & s & E).
  pose proof (uint_chars_decimal (N.to_uint n)) as Hd. fold (decimal n) in Hd.
  pose proof (int_of_decimal n) as Hi. rewrite E in *.
  rewrite count_search by assumption. rewrite Hi. reflexivity.
Qed.

(** X5.  With the counter enabled [get_update_count] reads the first
    marker: for a content that holds [Update count: ] and a run of decimal
    digits after a text without that marker, with something that is no
    decimal digit after the run, it is the number of the digits plus one
    when the digits are at most 4300, and it raises the [ValueError] of
    [int] when they are more.  So a count written as the decimal digits of
    [n] is read back as [n + 1] unless [n] has more than 4300 digits. *)
Theorem count_read_back pre rest :
  contains count_key pre = false ->
  match rest with d :: _ => isdecimal d | [] => false end = false ->
  (forall c digits,
      forallb isdecimal (c :: digits) = true ->
      get_update_count true (pre ++ count_key ++ (c :: digits) ++ rest)
      = if (length (c :: digits) <=? max_str_digits)%nat
        then Some (Some (int_of_digits (c :: digits) + 1))
        else None)
  /\ (forall n,
        get_update_count true (pre ++ count_key ++ decimal n ++ rest)
        = if (length (decimal n) <=? max_str_digits)%nat
          then Some (Some (n + 1))
          else None).
Proof.
  intros Hpre Hrest. split.
  - intros c digits Hd. by apply count_search.
  - intros n. by apply count_search_decimal.
Qed.

Lemma count_read_back_witness :
  contains count_key (txt "//  ") = false
  /\ match [nl] with c :: _ => isdecimal c | [] => false end = false
  /\ get_update_count true (txt "//  " ++ count_key ++ decimal 41 ++ [nl])
     = Some (Some 42)
  /\ get_update_count true (txt "//  " ++ count_key ++ [73555] ++ [nl]) = Some (Some 4)
  /\ get_update_count true (txt "//  " ++ count_key ++ (57 :: repeat 57 4299) ++ [nl])
     = Some (Some (int_of_digits (57 :: repeat 57 4299) + 1))
  /\ get_update_count true (txt "//  " ++ count_key ++ (57 :: repeat 57 4300) ++ [nl])
     = None.
Proof.
  destruct (count_read_back (txt "//  ") [nl] eq_refl eq_refl) as [Hd Hn].
  split; [reflexivity|]. split; [reflexivity|]. split; [|split; [|split]].
  - rewrite Hn. reflexivity.
  - rewrite (Hd 73555 []) by reflexivity. reflexivity.
  - rewrite Hd by (vm_compute; reflexivity).
    replace (length (57 :: repeat 57 4299) <=? max_str_digits)%nat with true
      by (vm_compute; reflexivity).
    reflexivity.
  - rewrite Hd by (vm_compute; reflexivity).
    replace (length (57 :: repeat 57 4300) <=? max_str_digits)%nat with false
      by (vm_compute; reflexivity).
    reflexivity.
Defined.

(** X6.  With the counter enabled, a content without [Update count: ] is a
    new file: [get_update_count] is [1]. *)
Theorem count_starts_at_one content :
  contains count_key content = false -> get_update_count true content = Some (Some 1).
Proof.
  intros H. unfold get_update_count, re_search, count_pattern. cbn [negb].
  fold count_key. rewrite (search_lit_none _ _ _ _ H). reflexivity.
Qed.

Lemma count_starts_at_one_witness :
  contains count_key foo_call = false /\ get_update_count true foo_call = Some (Some 1).
Proof. split; [reflexivity|]. apply (count_starts_at_one foo_call). reflexivity. Defined.

Lemma startswith_lacks x key s :
  startswith key s = true -> lacks x s = true -> lacks x key = true.
Proof.
  revert s. induction key as [|a key IH]; intros s H Hs; [reflexivity|].
  destruct s as [|b s]; [discriminate|]. cbn [startswith] in H.
  apply andb_prop in H as [Hab H]. apply N.eqb_eq in Hab as ->.
  rewrite lacks_cons in *. apply andb_prop in Hs as [-> Hs]. apply (IH s H Hs).
Qed.

(** A key does not occur in a text that lacks one of its characters. *)
Lemma contains_lacks x key s :
  lacks x key = false -> lacks x s = true -> contains key s = false.
Proof.
  intros Hk. induction s as [|c s IH]; intros Hs.
  - cbn [contains]. destruct (startswith key []) eqn:E; [|reflexivity].
    rewrite (startswith_lacks x key [] E Hs) in Hk. discriminate.
  - cbn [contains]. destruct (startswith key (c :: s)) eqn:E.
    + rewrite (startswith_lacks x key _ E Hs) in Hk. discriminate.
    + rewrite lacks_cons in Hs. apply andb_prop in Hs as [_ Hs]. apply IH, Hs.
Qed.

(** With the counter on the count is never Python's [None]. *)
Lemma count_on content : get_update_count true content <> Some None.
Proof.
  unfold get_update_count. cbn [negb].
  destruct (re_search count_pattern content) as [[[? ?] cs]|]; [|discriminate].
  destruct (int_of_text _); discriminate.
Qed.

(** The counter text of the source renderer, by the count. *)
Lemma swift_counter_on content :
  swift_counter_str true content
  = match get_update_count true content with
    | Some (Some n) =>
        if (length (decimal n) <=? max_str_digits)%nat
        then Some (txt "//  " ++ count_key ++ decimal n ++ [nl])
        else None
    | Some None => Some (txt "//  " ++ count_key ++ txt "None" ++ [nl])
    | None => None
    end.
Proof.
  unfold swift_counter_str. destruct (get_update_count true content) as [[n|]|]; cbn;
    [|reflexivity..].
  unfold text_of_int. destruct (length (decimal n) <=? max_str_digits)%nat; reflexivity.
Qed.

Lemma counted_header_shape today content name n tail :
  swift_counter_str true content = Some (txt "//  " ++ count_key ++ decimal n ++ [nl]) ->
  new_header true today content name ++ tail
  = counted_lead today name ++ count_key ++ decimal n ++ nl :: txt "//" ++ nl :: tail.
Proof.
  intros Hn. unfold new_header. rewrite Hn. cbn [from_option]. unfold id.
  unfold header_block, counted_lead, header_lead, header_mid.
  change (txt "//  First created: ") with (txt "//  " ++ txt "First created: ").
  change (txt "//  Last updated: ") with (txt "//  " ++ txt "Last updated: ").
  repeat (rewrite <- app_assoc || rewrite <- app_comm_cons). reflexivity.
Qed.

Lemma counted_lead_no_key today name :
  plain_name name = true -> contains count_key (counted_lead today name) = false.
Proof.
  intros Hn%plain_name_lacks_colon. unfold counted_lead.
  rewrite header_mid_split.
  change count_key with (85 :: txt "pdate count: ").
  rewrite contains_skip by reflexivity.
  rewrite contains_line by reflexivity.
  rewrite (contains_lacks 58 _ name) by (reflexivity || assumption).
  rewrite <- !app_assoc.
  rewrite contains_miss by reflexivity.
  rewrite (contains_skip 85 _ (txt "//  rB")) by reflexivity.
  cbn [app orb].
  rewrite contains_miss by reflexivity.
  match goal with
  | |- contains _ ?s = _ => rewrite <- (app_nil_r s), contains_skip; [reflexivity|]
  end.
  repeat (rewrite lacks_app || rewrite lacks_cons).
  unfold CURRENT_DATE. rewrite lacks_date by reflexivity. reflexivity.
Qed.

Lemma decimal_no_backslash n : lacks backslash (decimal n) = true.
Proof.
  unfold decimal. eapply forallb_weaken; [|apply uint_chars_digits].
  intros c Hc. destruct (N.eqb_spec c backslash) as [->|]; [discriminate | reflexivity].
Qed.

(** A counter text has no backslash. *)
Lemma counter_str_plain flag content counter_str :
  swift_counter_str flag content = Some counter_str -> no_backslash counter_str = true.
Proof.
  unfold no_backslash. destruct flag; [|by intros [= <-]].
  rewrite swift_counter_on.
  destruct (get_update_count true content) as [[n|]|]; [| |discriminate].
  - destruct (length (decimal n) <=? max_str_digits)%nat; [|discriminate].
    intros H.
    assert (counter_str = txt "//  " ++ count_key ++ decimal n ++ [nl]) as ->
      by congruence.
    rewrite !lacks_app, decimal_no_backslash. reflexivity.
  - intros H.
    assert (counter_str = txt "//  " ++ count_key ++ txt "None" ++ [nl]) as ->
      by congruence.
    reflexivity.
Qed.

Lemma no_backslash_block today counter_str name :
  no_backslash counter_str = true -> no_backslash name = true ->
  no_backslash (header_block today counter_str name) = true.
Proof.
  intros Hc Hn. unfold no_backslash in *. unfold header_block, CURRENT_DATE.
  rewrite !lacks_app, Hn, Hc, lacks_date by reflexivity. reflexivity.
Qed.

(** With a counter text, and a file name without backslash, the result of
    the source renderer starts with the header. *)
Lemma swift_header_first flag today content name counter_str :
  swift_counter_str flag content = Some counter_str ->
  no_backslash name = true ->
  exists tail,
    update_swift_file flag today content name
    = Some (new_header flag today content name ++ tail)
    /\ (re_match header_pattern content = None -> tail = content).
Proof.
  intros Hc Hn. rewrite (swift_with_counter _ _ _ _ _ Hc).
  destruct (re_match header_pattern content) as [[rest cs]|] eqn:Hm.
  - destruct (re_sub_plain_head header_pattern (new_header flag today content name)
                content rest cs) as [tail Ht]; [|exact Hm|].
    + unfold new_header. rewrite Hc. cbn [default].
      apply no_backslash_block; [by eapply counter_str_plain | exact Hn].
    + exists tail. split; [exact Ht | discriminate].
  - exists content. split; reflexivity.
Qed.

Lemma swift_raises flag today content name :
  swift_counter_str flag content = None ->
  update_swift_file flag today content name = None.
Proof. intros H. unfold update_swift_file. rewrite H. reflexivity. Qed.

(** X7.  With the counter enabled a run of the source renderer raises the
    count by one: for a file name without backslash and colon, where
    [get_update_count] reads the count [n] from the content and [n] has at
    most 4300 digits, the renderer returns a text and the count read from
    that text is [n + 1]; where [int] raises on the marker of the content,
    or [n] has more digits, the renderer raises. *)
Theorem swift_count_increments today content name :
  plain_name name = true ->
  match get_update_count true content with
  | Some (Some n) =>
      if (length (decimal n) <=? max_str_digits)%nat
      then exists stamped,
             update_swift_file true today content name = Some stamped
             /\ get_update_count true stamped = Some (Some (n + 1))
      else update_swift_file true today content name = None
  | Some None => False
  | None => update_swift_file true today content name = None
  end.
Proof.
  intros Hn. pose proof (swift_counter_on content) as Hc.
  pose proof (count_on content) as Hon.
  destruct (get_update_count true content) as [[n|]|]; [|done|by apply swift_raises].
  destruct (length (decimal n) <=? max_str_digits)%nat eqn:Hlen; [|by apply swift_raises].
  destruct (swift_header_first true today content name _ Hc
              (plain_name_no_backslash _ Hn)) as (tail & Ht & _).
  exists (new_header true today content name ++ tail). split; [exact Ht|].
  rewrite (counted_header_shape today content name n tail Hc).
  rewrite count_search_decimal; [by rewrite Hlen | apply counted_lead_no_key, Hn | reflexivity].
Qed.

Lemma swift_count_increments_witness :
  plain_name a_swift = true
  /\ get_update_count true foo_call = Some (Some 1)
  /\ exists stamped,
       update_swift_file true sample_day foo_call a_swift = Some stamped
       /\ get_update_count true stamped = Some (Some 2).
Proof.
  split; [reflexivity|]. split; [reflexivity|].
  pose proof (swift_count_increments sample_day foo_call a_swift eq_refl) as H.
  replace (get_update_count true foo_call) with (Some (Some 1)) in H by reflexivity.
  exact H.
Defined.

(** ** What a match leaves, and the body of a source file *)

Lemma strip_prefix_some key s s' : strip_prefix key s = Some s' -> s = key ++ s'.
Proof.
  revert s. induction key as [|a key IH]; intros s H; [by injection H as ->|].
  destruct s as [|b s]; [discriminate|]. cbn [strip_prefix] in H.
  destruct (N.eqb_spec a b) as [->|]; [|discriminate]. by rewrite (IH s H).
Qed.

Lemma lazy_star_suffix {A} p s (k : list N -> option A) x :
  lazy_star p s k = Some x -> exists s', s' `suffix_of` s /\ k s' = Some x.
Proof.
  induction s as [|c s IH]; cbn [lazy_star]; intros H.
  - destruct (k []) eqn:E; [|discriminate]. exists []. by rewrite E.
  - destruct (k (c :: s)) eqn:E.
    + exists (c :: s). by rewrite E.
    + destruct (p c); [|discriminate]. destruct (IH H) as (s' & Hs & Hk).
      exists s'. split; [by apply suffix_cons_r | exact Hk].
Qed.

Lemma greedy_star_suffix {A} p s (k : list N -> option A) x :
  greedy_star p s k = Some x -> exists s', s' `suffix_of` s /\ k s' = Some x.
Proof.
  induction s as [|c s IH]; cbn [greedy_star]; intros H; [by exists []|].
  destruct (p c); [|by exists (c :: s)].
  destruct (greedy_star p s k) eqn:E; [|by exists (c :: s)].
  destruct (IH H) as (s' & Hs & Hk).
  exists s'. split; [by apply suffix_cons_r | exact Hk].
Qed.

(** What the matcher hands to its continuation is an end of the input. *)
Lemma mtch_suffix {A} r s cs (k : list N -> captures -> option A) x :
  mtch r s cs k = Some x ->
  exists s' cs', s' `suffix_of` s /\ k s' cs' = Some x.
Proof.
  revert s cs k. induction r as [l|p|p|p|r IH|i r IH|r1 IH1 r2 IH2];
    intros s cs k H; cbn [mtch] in H.
  - destruct (strip_prefix l s) as [s'|] eqn:E; [|discriminate].
    exists s', cs. split; [|exact H]. rewrite (strip_prefix_some _ _ _ E).
    by apply suffix_app_r.
  - destruct s as [|c s]; [discriminate|]. destruct (p c); [|discriminate].
    exists s, cs. split; [by apply suffix_cons_r | exact H].
  - apply lazy_star_suffix in H as (s' & Hs & Hk). by exists s', cs.
  - destruct s as [|c s]; [discriminate|]. destruct (p c); [|discriminate].
    apply greedy_star_suffix in H as (s' & Hs & Hk).
    exists s', cs. split; [by apply suffix_cons_r | exact Hk].
  - destruct (mtch r s cs k) eqn:E.
    + injection H as ->. by apply IH in E.
    + by exists s, cs.
  - apply IH in H as (s' & cs' & Hs & Hk). by eexists _, _.
  - apply IH1 in H as (s1 & cs1 & Hs1 & H). apply IH2 in H as (s2 & cs2 & Hs2 & H).
    exists s2, cs2. split; [by etrans | exact H].
Qed.

Lemma match_here_suffix adv r s rest cs :
  match_here adv r s = Some (rest, cs) -> rest `suffix_of` s.
Proof.
  unfold match_here. intros H. apply mtch_suffix in H as (s' & cs' & Hs & H).
  destruct (adv && _); [discriminate|]. by injection H as <- <-.
Qed.

(** A match of a pattern that starts with a literal is not empty. *)
Lemma match_lit_shorter adv a key r s rest cs :
  match_here adv (Cat (Lit (a :: key)) r) s = Some (rest, cs) ->
  (length rest < length s)%nat.
Proof.
  unfold match_here. cbn [mtch]. intros H.
  destruct (strip_prefix (a :: key) s) as [s1|] eqn:E; [|discriminate].
  apply strip_prefix_some in E as ->.
  apply mtch_suffix in H as (s' & cs' & Hs & H).
  destruct (adv && _); [discriminate|]. injection H as <- <-.
  apply suffix_length in Hs. cbn [app length]. rewrite length_app. lia.
Qed.

Lemma subx_skip r tpl m rest :
  subx r tpl (m ++ rest) (length m) = subx r tpl rest 0.
Proof. induction m as [|c m IH]; [reflexivity|]. cbn [app length subx]. exact IH. Qed.

(** One step of the substitution where the pattern matches a text that is
    not empty. *)
Lemma subx_match r tpl s rest cs :
  match_here false r s = Some (rest, cs) -> (length rest < length s)%nat ->
  subx r tpl s 0 = expand tpl (matched s rest) cs ++ subx r tpl rest 0.
Proof.
  intros H Hlen. pose proof (match_here_suffix _ _ _ _ _ H) as [m ->].
  destruct m as [|c m]; [cbn [app] in Hlen; lia|].
  cbn [app subx]. change (c :: m ++ rest) with ((c :: m) ++ rest) in *.
  rewrite H.
  replace (length ((c :: m) ++ rest) <=? length rest)%nat with false
    by (symmetry; apply Nat.leb_gt; exact Hlen).
  f_equal. unfold matched.
  replace (length ((c :: m) ++ rest) - length rest)%nat with (length (c :: m))
    by (rewrite length_app; lia).
  rewrite take_app_length.
  replace (length (c :: m) - 1)%nat with (length m) by (cbn [length]; lia).
  apply subx_skip.
Qed.

(** Where the literal a pattern starts with does not occur, nothing is
    replaced. *)
Lemma subx_lit_none key r tpl s :
  contains key s = false -> subx (Cat (Lit key) r) tpl s 0 = s.
Proof.
  induction s as [|c s IH]; intros H; cbn [subx].
  - rewrite match_lit_fail; [reflexivity|]. by destruct key.
  - cbn [contains] in H. apply orb_false_elim in H as [H1 H2].
    rewrite (match_lit_fail _ _ _ _ H1), (IH H2). reflexivity.
Qed.

(** X8.  Where the content starts with a header of the expected shape and
    the text after that header has no further ["//\n//"], the source
    renderer (file name without backslash) returns the new header followed
    by exactly that text: the body is kept as it is. *)
Theorem swift_body_preserved today content name rest cs :
  no_backslash name = true ->
  re_match header_pattern content = Some (rest, cs) ->
  contains block_start rest = false ->
  update_swift_file false today content name
  = Some (new_header false today content name ++ rest).
Proof.
  intros Hn Hm Hrest. rewrite swift_off. rewrite Hm. unfold re_sub.
  rewrite parse_template_plain by (auto using no_backslash_header; lia).
  f_equal. unfold re_match in Hm.
  assert (P : header_pattern
              = Cat (Lit (47 :: txt "/" ++ [nl] ++ txt "//"))
                    (Cat (LazyStar dot)
                       (Cat (Lit ([nl] ++ txt "//"))
                          (Cat (LazyStar dot) (Lit ([nl] ++ txt "//" ++ [nl]))))))
    by reflexivity.
  rewrite P in *.
  rewrite (subx_match _ _ _ _ _ Hm) by (eapply match_lit_shorter, Hm).
  rewrite expand_chars. f_equal.
  apply (subx_lit_none block_start). exact Hrest.
Qed.

Lemma swift_body_preserved_witness :
  no_backslash a_swift = true
  /\ re_match header_pattern headed_example = Some (txt "let x = 1" ++ [nl], [])
  /\ contains block_start (txt "let x = 1" ++ [nl]) = false
  /\ update_swift_file false sample_day headed_example a_swift
     = Some (new_header false sample_day headed_example a_swift ++ txt "let x = 1" ++ [nl]).
Proof.
  assert (H : re_match header_pattern headed_example = Some (txt "let x = 1" ++ [nl], []))
    by (vm_compute; reflexivity).
  split; [reflexivity|]. split; [exact H|]. split; [reflexivity|].
  apply (swift_body_preserved sample_day headed_example a_swift _ [] eq_refl H).
  reflexivity.
Defined.

(** ** Documents without and with a date section *)

Lemma split_lines_cons s : exists l ls, split_lines s = l :: ls.
Proof.
  induction s as [|c s (l & ls & IH)]; [by eexists _, _|].
  cbn [split_lines]. rewrite IH. destruct (c =? nl); by eexists _, _.
Qed.

Lemma join_lines_cons l l2 ls :
  join_lines (l :: l2 :: ls) = l ++ nl :: join_lines (l2 :: ls).
Proof. reflexivity. Qed.

(** Joining the lines of a text gives the text back. *)
Lemma join_split s : join_lines (split_lines s) = s.
Proof.
  induction s as [|c s IH]; [reflexivity|]. cbn [split_lines].
  destruct (split_lines_cons s) as (l & ls & E). rewrite E in *.
  destruct (N.eqb_spec c nl) as [->|_].
  - rewrite join_lines_cons, IH. reflexivity.
  - destruct ls as [|l' ls].
    + cbn [join_lines] in *. by rewrite IH.
    + rewrite join_lines_cons in *. rewrite <- IH. reflexivity.
Qed.

Lemma contains_app_r key x t : contains key t = true -> contains key (x ++ t) = true.
Proof.
  intros H. induction x as [|c x IH]; [exact H|].
  cbn [app contains]. rewrite IH. apply orb_true_r.
Qed.

Lemma contains_prefix key l t : startswith key l = true -> contains key (l ++ t) = true.
Proof.
  intros [u ->]%startswith_split. rewrite <- app_assoc.
  destruct (key ++ u ++ t) eqn:E; cbn [contains]; rewrite <- E, startswith_app; reflexivity.
Qed.

Lemma contains_join key l ls :
  l ∈ ls -> startswith key l = true -> contains key (join_lines ls) = true.
Proof.
  intros Hin Hl. induction ls as [|l1 ls IH]; [by apply elem_of_nil in Hin|].
  destruct ls as [|l2 ls].
  - apply list_elem_of_singleton in Hin as ->. cbn [join_lines].
    rewrite <- (app_nil_r l1). by apply contains_prefix.
  - rewrite join_lines_cons. apply elem_of_cons in Hin as [->|Hin].
    + by apply contains_prefix.
    + apply contains_app_r. apply (contains_app_r key [nl]). apply IH, Hin.
Qed.

(** No line of a text without the key starts with it. *)
Lemma lines_without key s :
  contains key s = false ->
  Forall (fun l => startswith key l = false) (split_lines s).
Proof.
  intros H. apply Forall_forall. intros l Hl.
  destruct (startswith key l) eqn:E; [|reflexivity].
  rewrite <- (join_split s), (contains_join key l _ Hl E) in H. discriminate.
Qed.

Lemma find_title_bound lines i : (find_title lines i <= i + length lines)%nat.
Proof.
  revert i. induction lines as [|l ls IH]; intros i; cbn [find_title length]; [lia|].
  destruct (startswith _ l); [lia|]. specialize (IH (S i)). lia.
Qed.

(** Without a date line the description scan runs to the last line, if that
    is not blank. *)
Lemma scan_to_end ls l i d :
  Forall (fun l => startswith fc_key l = false) (ls ++ [l]) ->
  truthy (strip l) = true ->
  scan_description (ls ++ [l]) i d = (i + length (ls ++ [l]))%nat.
Proof.
  intros Hfc Hl. revert i d. induction ls as [|l1 ls IH]; intros i d.
  - cbn [app scan_description length]. apply Forall_inv in Hfc. fold fc_key.
    rewrite Hl, Hfc. cbn. lia.
  - cbn [app scan_description length]. fold fc_key.
    pose proof (Forall_inv Hfc) as H1. apply Forall_inv_tail in Hfc. cbn beta in H1.
    rewrite H1. cbn [negb]. rewrite andb_true_r.
    destruct (truthy (strip l1)); cbn [negb]; rewrite (IH Hfc); cbn [app length]; lia.
Qed.

Lemma md_header_fresh content :
  contains fc_key content = false ->
  truthy (strip (last_line content)) = true ->
  md_header content = content ++ [nl; nl].
Proof.
  intros Hfc Hlast. unfold md_header.
  pose proof (lines_without _ _ Hfc) as Hlines.
  unfold last_line in Hlast.
  destruct (last (split_lines content)) as [l|] eqn:E;
    [|by apply last_None in E; destruct (split_lines_cons content) as (? & ? & ?); congruence].
  apply last_Some in E as [ls E]. cbn [default] in Hlast.
  pose proof (find_title_bound (split_lines content) 0) as Hb. rewrite E in *.
  generalize dependent (find_title (ls ++ [l]) 0). intros t Hb.
  assert (Hd : scan_description (drop t (ls ++ [l])) t t = length (ls ++ [l])).
  { rewrite length_app in *. cbn [length Nat.add] in Hb.
    destruct (decide (t <= length ls)%nat) as [Hle|Hgt].
    - rewrite drop_app_le by exact Hle.
      rewrite scan_to_end; [|rewrite <- drop_app_le by exact Hle; by apply Forall_drop|exact Hlast].
      rewrite !length_app, length_drop. cbn [length]. lia.
    - rewrite drop_ge by (rewrite length_app; cbn [length]; lia).
      cbn [scan_description length]. lia. }
  rewrite Hd, firstn_all. rewrite <- E, join_split.
  assert (truthy content = true) as ->; [|reflexivity].
  destruct content; [|reflexivity]. cbn in E.
  destruct ls as [|? [|? ?]]; cbn in E; try discriminate. injection E as <-.
  cbn in Hlast. discriminate.
Qed.

Lemma md_fresh_counted flag today content name counter_str :
  md_counter_str flag content = Some counter_str ->
  contains fc_key content = false ->
  truthy (strip (last_line content)) = true ->
  update_markdown_file flag today content name
  = Some (content ++ [nl; nl] ++ date_section flag today content).
Proof.
  intros Hc Hfc Hlast. rewrite (md_with_counter _ _ _ _ _ Hc).
  rewrite (md_header_fresh content Hfc Hlast).
  unfold re_sub. cbn [length parse_template]. unfold dates_pattern. fold fc_key.
  rewrite (subx_lit_none fc_key _ _ _ Hfc).
  rewrite drop_ge by (rewrite length_app; lia).
  replace (re_search section_pattern []) with (@None (nat * list N * captures))
    by (vm_compute; reflexivity).
  rewrite app_nil_r, <- app_assoc. reflexivity.
Qed.

Lemma md_fresh_shape today content name :
  contains fc_key content = false ->
  truthy (strip (last_line content)) = true ->
  update_markdown_file false today content name
  = Some (content ++ [nl; nl] ++ date_section false today content).
Proof. by apply md_fresh_counted with (counter_str := []). Qed.

Lemma md_raises flag today content name :
  md_counter_str flag content = None ->
  update_markdown_file flag today content name = None.
Proof. intros H. unfold update_markdown_file. rewrite H. reflexivity. Qed.

(** X9.  A document that nowhere contains [First created:] and whose last
    line is not blank gets its date section at the very end, after a blank
    line, whatever titles and section headers it has: the description scan
    only stops at a date line.  That is so with the counter off and on; with
    the counter on the renderer raises where the counter text does. *)
Theorem md_fresh_document flag today content name :
  contains fc_key content = false ->
  truthy (strip (last_line content)) = true ->
  match md_counter_str flag content with
  | Some _ =>
      update_markdown_file flag today content name
      = Some (content ++ [nl; nl] ++ date_section flag today content)
  | None => flag = true /\ update_markdown_file flag today content name = None
  end.
Proof.
  intros Hfc Hlast. destruct (md_counter_str flag content) as [c|] eqn:Hc.
  - by eapply md_fresh_counted.
  - split; [by destruct flag | by apply md_raises].
Qed.

Lemma md_fresh_document_witness :
  contains fc_key doc_example = false
  /\ truthy (strip (last_line doc_example)) = true
  /\ update_markdown_file false sample_day doc_example a_swift
     = Some (doc_example ++ [nl; nl] ++ date_section false sample_day doc_example).
Proof.
  split; [reflexivity|]. split; [reflexivity|].
  apply (md_fresh_document false sample_day doc_example a_swift); reflexivity.
Defined.

Lemma date_section_shape today content :
  date_section false today content = fc_line ++ nl :: lu_line today ++ [nl; nl].
Proof.
  rewrite date_section_off; unfold date_block, fc_line, lu_line, fc_key, lu_key.
  change (txt "First created: ") with (txt "First created:" ++ txt " ").
  change (txt "Last updated: ") with (txt "Last updated:" ++ txt " ").
  repeat (rewrite <- app_assoc || rewrite <- app_comm_cons). reflexivity.
Qed.

Lemma split_lines_app_nl a b : split_lines (a ++ nl :: b) = split_lines a ++ split_lines b.
Proof.
  induction a as [|c a IH]; [reflexivity|]. cbn [app split_lines]. rewrite IH.
  destruct (c =? nl); [reflexivity|].
  destruct (split_lines_cons a) as (l & ls & ->). reflexivity.
Qed.

Lemma find_title_none ls i :
  Forall (fun l => startswith title_key l = false) ls -> find_title ls i = 0%nat.
Proof.
  intros H. revert i. induction H as [|l ls Hl _ IH]; intros i; [reflexivity|].
  cbn [find_title]. fold title_key. rewrite Hl. apply IH.
Qed.

Lemma find_title_app ls xs i :
  Forall (fun l => startswith title_key l = false) xs ->
  find_title (ls ++ xs) i = find_title ls i.
Proof.
  intros H. revert i. induction ls as [|l ls IH]; intros i.
  - cbn [app]. rewrite find_title_none by exact H. reflexivity.
  - cbn [app find_title]. destruct (startswith _ l); [reflexivity | apply IH].
Qed.

(** The description scan stops at the date line and keeps what it had
    after the last line that is not blank. *)
Lemma scan_stops ls l rest i d :
  Forall (fun l => startswith fc_key l = false) (ls ++ [l]) ->
  truthy (strip l) = true ->
  scan_description ((ls ++ [l]) ++ [] :: fc_line :: rest) i d
  = (i + length (ls ++ [l]))%nat.
Proof.
  intros Hfc Hl. revert i d. induction ls as [|l1 ls IH]; intros i d.
  - apply Forall_inv in Hfc. cbn [app scan_description length]. fold fc_key.
    rewrite Hl, Hfc. cbn [negb andb].
    replace (truthy (strip [])) with false by reflexivity.
    replace (truthy (strip fc_line)) with true by (vm_compute; reflexivity).
    replace (startswith fc_key fc_line) with true by (vm_compute; reflexivity).
    cbn [negb andb]. lia.
  - pose proof (Forall_inv Hfc) as H1. apply Forall_inv_tail in Hfc. cbn beta in H1.
    change (((l1 :: ls) ++ [l]) ++ [] :: fc_line :: rest)
      with (l1 :: ((ls ++ [l]) ++ [] :: fc_line :: rest)).
    cbn [scan_description]. fold fc_key. rewrite H1. cbn [negb]. rewrite andb_true_r.
    destruct (truthy (strip l1)); cbn [negb]; rewrite (IH Hfc); cbn [app length]; lia.
Qed.

Lemma restamped_lines today content :
  split_lines (content ++ [nl; nl] ++ date_section false today content)
  = split_lines content ++ [] :: fc_line :: split_lines (lu_line today ++ [nl; nl]).
Proof.
  rewrite date_section_shape. cbn [app].
  rewrite split_lines_app_nl. reflexivity.
Qed.

Lemma no_title_after today :
  Forall (fun l => startswith title_key l = false)
         ([] :: fc_line :: split_lines (lu_line today ++ [nl; nl])).
Proof.
  constructor; [reflexivity|]. constructor; [reflexivity|].
  apply lines_without. apply (contains_lacks 35); [reflexivity|].
  unfold lu_line, CURRENT_DATE. repeat (rewrite lacks_app || rewrite lacks_cons).
  rewrite lacks_date by reflexivity. reflexivity.
Qed.

Lemma md_header_restamped today content :
  contains fc_key content = false ->
  truthy (strip (last_line content)) = true ->
  md_header (content ++ [nl; nl] ++ date_section false today content)
  = content ++ [nl; nl].
Proof.
  intros Hfc Hlast. unfold md_header. rewrite restamped_lines.
  pose proof (lines_without _ _ Hfc) as Hlines.
  unfold last_line in Hlast.
  destruct (last (split_lines content)) as [l|] eqn:E;
    [|by apply last_None in E; destruct (split_lines_cons content) as (? & ? & ?); congruence].
  apply last_Some in E as [ls E]. cbn [default] in Hlast.
  rewrite (find_title_app _ _ _ (no_title_after today)).
  pose proof (find_title_bound (split_lines content) 0) as Hb.
  assert (Hc : truthy content = true).
  { destruct content; [|reflexivity]. cbn in E.
    destruct ls as [|? [|? ?]]; cbn in E; try discriminate. injection E as <-.
    cbn in Hlast. discriminate. }
  rewrite E in Hb, Hlines |- *.
  generalize dependent (find_title (ls ++ [l]) 0). intros t Hb.
  rewrite length_app in Hb. cbn [length Nat.add] in Hb.
  set (X := [] :: fc_line :: split_lines (lu_line today ++ [nl; nl])).
  assert (Hd : scan_description (drop t ((ls ++ [l]) ++ X)) t t = length (ls ++ [l])).
  { destruct (decide (t <= length ls)%nat) as [Hle|Hgt].
    - rewrite <- app_assoc, drop_app_le, app_assoc by exact Hle.
      unfold X. rewrite scan_stops;
        [|rewrite <- drop_app_le by exact Hle; by apply Forall_drop|exact Hlast].
      rewrite !length_app, length_drop. cbn [length]. lia.
    - assert (t = length (ls ++ [l])) as -> by (rewrite length_app; cbn [length]; lia).
      rewrite drop_app_length. unfold X. cbn [scan_description]. fold fc_key.
      replace (truthy (strip [])) with false by reflexivity.
      replace (truthy (strip fc_line)) with true by (vm_compute; reflexivity).
      replace (startswith fc_key fc_line) with true by (vm_compute; reflexivity).
      reflexivity. }
  rewrite Hd, take_app_length, <- E, join_split, Hc. reflexivity.
Qed.

(** The substitution copies a text without the literal up to what follows,
    if that starts with the first character of the literal. *)
Lemma subx_lit_skip a k r tpl pre m :
  lacks a k = true -> contains (a :: k) pre = false ->
  subx (Cat (Lit (a :: k)) r) tpl (pre ++ a :: m) 0
  = pre ++ subx (Cat (Lit (a :: k)) r) tpl (a :: m) 0.
Proof.
  intros Hk. induction pre as [|c pre IH]; intros H; [reflexivity|].
  apply contains_cons_false in H as [H1 H2].
  change ((c :: pre) ++ a :: m) with (c :: (pre ++ a :: m)) at 1.
  cbn [subx].
  change (c :: (pre ++ a :: m)) with ((c :: pre) ++ a :: m).
  rewrite match_lit_fail by (apply startswith_no_straddle; assumption).
  rewrite (IH H2). reflexivity.
Qed.

(** The lazy star of [.] in front of a continuation that wants a newline
    runs to the end of the line. *)
Lemma lazy_star_dot_line {A} run s (k : list N -> option A) :
  lacks nl run = true ->
  (forall c t, (c =? nl) = false -> k (c :: t) = None) ->
  lazy_star dot (run ++ nl :: s) k = k (nl :: s).
Proof.
  intros Hrun Hk. induction run as [|c run IH].
  - cbn [app lazy_star]. destruct (k (nl :: s)); reflexivity.
  - rewrite lacks_cons in Hrun. apply andb_prop in Hrun as [Hc Hrun].
    apply negb_true_iff in Hc. cbn [app lazy_star].
    rewrite (Hk c _ Hc). unfold dot at 1. rewrite Hc. cbn [negb]. apply IH, Hrun.
Qed.

Lemma lazy_star_now {A} p s (k : list N -> option A) x :
  k s = Some x -> lazy_star p s k = Some x.
Proof. intros H. destruct s; cbn [lazy_star]; rewrite H; reflexivity. Qed.

(** [dates_pattern] takes a block of a creation line, an update line and a
    blank line as a whole. *)
Lemma dates_match run1 run2 :
  lacks nl run1 = true -> lacks nl run2 = true ->
  match_here false dates_pattern (fc_key ++ run1 ++ nl :: lu_key ++ run2 ++ [nl; nl])
  = Some ([], []).
Proof.
  intros H1 H2. unfold match_here, dates_pattern. cbn [mtch]. fold fc_key lu_key.
  rewrite strip_prefix_app.
  rewrite lazy_star_dot_line;
    [|exact H1|intros c t Hc; cbn [strip_prefix]; rewrite N.eqb_sym, Hc; reflexivity].
  cbn [strip_prefix]. rewrite N.eqb_refl.
  apply lazy_star_now. rewrite strip_prefix_app.
  rewrite lazy_star_dot_line;
    [|exact H2|intros c t Hc; cbn [strip_prefix]; rewrite N.eqb_sym, Hc; reflexivity].
  reflexivity.
Qed.

Lemma date_section_block today content :
  exists run1 run2,
    lacks nl run1 = true /\ lacks nl run2 = true
    /\ date_section false today content
       = fc_key ++ run1 ++ nl :: lu_key ++ run2 ++ [nl; nl].
Proof.
  exists (txt " " ++ CREATION_DATE), (txt " " ++ CURRENT_DATE today).
  split; [reflexivity|]. split.
  - unfold CURRENT_DATE. rewrite lacks_app, lacks_date by reflexivity. reflexivity.
  - rewrite date_section_shape. unfold fc_line, lu_line.
    repeat (rewrite <- app_assoc || rewrite <- app_comm_cons). reflexivity.
Qed.

Lemma restamped_sub today content :
  contains fc_key content = false ->
  re_sub dates_pattern [] (content ++ [nl; nl] ++ date_section false today content)
  = Some (content ++ [nl; nl]).
Proof.
  intros Hfc. unfold re_sub. cbn [length parse_template]. f_equal.
  destruct (date_section_block today content) as (run1 & run2 & H1 & H2 & ->).
  pose proof (dates_match run1 run2 H1 H2) as Hm.
  assert (P : dates_pattern
              = Cat (Lit (70 :: txt "irst created:"))
                    (Cat (LazyStar dot)
                     (Cat (Lit [nl])
                      (Cat (LazyStar dot)
                       (Cat (Lit (txt "Last updated:"))
                        (Cat (LazyStar dot)
                         (Cat (Lit [nl])
                          (Cat (Opt (Group 1 (Cat (Lit (txt "Update count:"))
                                              (Cat (LazyStar dot) (Lit [nl])))))
                               (Opt (Lit [nl])))))))))) by reflexivity.
  rewrite P in *.
  assert (E : fc_key ++ run1 ++ nl :: lu_key ++ run2 ++ [nl; nl]
              = 70 :: (txt "irst created:" ++ run1 ++ nl :: lu_key ++ run2 ++ [nl; nl]))
    by reflexivity.
  rewrite E in *. rewrite app_assoc.
  rewrite subx_lit_skip; [|reflexivity|].
  - rewrite (subx_match _ _ _ _ _ Hm) by (cbn [length]; lia).
    cbn [expand List.map concat app]. rewrite app_nil_r. reflexivity.
  - change (70 :: txt "irst created:") with fc_key.
    change (content ++ [nl; nl]) with (content ++ nl :: [nl]).
    change fc_key with (70 :: txt "irst created:") in *.
    rewrite contains_line by reflexivity. rewrite Hfc. reflexivity.
Qed.

Lemma md_restamped_shape day1 day2 content name :
  contains fc_key content = false ->
  truthy (strip (last_line content)) = true ->
  update_markdown_file false day2
    (content ++ [nl; nl] ++ date_section false day1 content) name
  = Some (content ++ [nl; nl] ++ date_section false day2 content).
Proof.
  intros Hfc Hlast. rewrite md_off.
  rewrite (md_header_restamped day1 content Hfc Hlast), (restamped_sub day1 content Hfc).
  rewrite drop_all.
  replace (re_search section_pattern []) with (@None (nat * list N * captures))
    by (vm_compute; reflexivity).
  rewrite app_nil_r, <- app_assoc. reflexivity.
Qed.

(** X10.  The documentation renderer is stable on what it made of such a
    document: a second run, on any day, only refreshes the date section in
    place, so its result is what a first run on that day gives, and on the
    same day nothing changes. *)
Theorem md_restamp_refreshes day1 day2 content name :
  contains fc_key content = false ->
  truthy (strip (last_line content)) = true ->
  exists once,
    update_markdown_file false day1 content name = Some once
    /\ update_markdown_file false day2 once name
       = update_markdown_file false day2 content name
    /\ update_markdown_file false day1 once name = Some once.
Proof.
  intros Hfc Hlast. eexists. split; [by apply md_fresh_shape|].
  rewrite !md_restamped_shape, md_fresh_shape by assumption. done.
Qed.

Lemma md_restamp_refreshes_witness :
  contains fc_key doc_example = false
  /\ truthy (strip (last_line doc_example)) = true
  /\ exists once,
       update_markdown_file false sample_day doc_example a_swift = Some once
       /\ update_markdown_file false (mk_date 5 November 2026) once a_swift
          = update_markdown_file false (mk_date 5 November 2026) doc_example a_swift
       /\ update_markdown_file false sample_day once a_swift = Some once.
Proof.
  split; [reflexivity|]. split; [reflexivity|].
  apply (md_restamp_refreshes sample_day (mk_date 5 November 2026) doc_example a_swift);
    reflexivity.
Defined.

(** ** Both paths of the source renderer, and documents run twice *)

(** X11.  For a file name without backslash the source renderer returns a
    text whenever its counter text does not raise, which it never does with
    the counter off, and that text starts with the header it rendered;
    where the content has no header of the expected shape, the rest of the
    text is the content itself.  Where the counter text raises, the
    renderer raises. *)
Theorem swift_starts_with_header flag today content name :
  no_backslash name = true ->
  match swift_counter_str flag content with
  | Some _ =>
      exists tail,
        update_swift_file flag today content name
        = Some (new_header flag today content name ++ tail)
        /\ (re_match header_pattern content = None -> tail = content)
  | None => flag = true /\ update_swift_file flag today content name = None
  end.
Proof.
  intros Hn. destruct (swift_counter_str flag content) as [c|] eqn:Hc.
  - by eapply swift_header_first.
  - split; [by destruct flag | by apply swift_raises].
Qed.

Lemma swift_starts_with_header_witness :
  no_backslash a_swift = true
  /\ exists tail,
       update_swift_file false sample_day foo_call a_swift
       = Some (new_header false sample_day foo_call a_swift ++ tail)
       /\ (re_match header_pattern foo_call = None -> tail = foo_call).
Proof.
  split; [reflexivity|].
  apply (swift_starts_with_header false sample_day foo_call a_swift). reflexivity.
Defined.

Lemma date_char_encodable c : date_char c = true -> negb (is_surrogate c) = true.
Proof.
  unfold date_char, is_digit, is_surrogate. intros H.
  assert (c <= 122); [|destruct (N.leb_spec 55296 c); [lia | reflexivity]].
  repeat (apply orb_prop in H as [H|H]);
    first [ apply andb_prop in H as [_ H%N.leb_le]; lia
          | apply N.eqb_eq in H as ->; apply N.leb_le; reflexivity
          | discriminate ].
Qed.

Lemma encodable_app s t : encodable (s ++ t) = encodable s && encodable t.
Proof. apply forallb_app. Qed.

Lemma encodable_date_section today content :
  encodable (date_section false today content) = true.
Proof.
  rewrite date_section_off; unfold date_block, CURRENT_DATE. rewrite !encodable_app.
  replace (encodable (strftime_dBY today)) with true; [reflexivity|].
  symmetry. eapply forallb_weaken; [|apply strftime_chars]. apply date_char_encodable.
Qed.

(** Reading in text mode leaves no carriage return, and a text without
    one is read as it is. *)
Lemma universal_newlines_lacks s : lacks 13 (universal_newlines s) = true.
Proof.
  induction s as [s IH] using (induction_ltof1 _ (@length N)); unfold ltof in IH.
  destruct s as [|d s]; [reflexivity|]. cbn [universal_newlines].
  destruct (N.eqb_spec d 13) as [->|Hd].
  - destruct s as [|e s]; [reflexivity|].
    destruct (e =? nl); rewrite lacks_cons;
      (replace (negb (nl =? 13)) with true by reflexivity); cbn [andb];
      apply IH; cbn [length]; lia.
  - rewrite lacks_cons. apply andb_true_intro. split.
    + apply negb_true_iff, N.eqb_neq, Hd.
    + apply IH. cbn [length]. lia.
Qed.

Lemma universal_newlines_plain s : lacks 13 s = true -> universal_newlines s = s.
Proof.
  induction s as [|c s IH]; [reflexivity|]. rewrite lacks_cons.
  intros [Hc Hs]%andb_prop. apply negb_true_iff in Hc.
  cbn [universal_newlines]. rewrite Hc, (IH Hs). reflexivity.
Qed.

Lemma date_section_no_return today content :
  lacks 13 (date_section false today content) = true.
Proof.
  rewrite date_section_off; unfold date_block, CURRENT_DATE.
  repeat (rewrite lacks_app || rewrite lacks_cons).
  rewrite lacks_date by reflexivity. reflexivity.
Qed.

(** X12.  For a documentation file the second run is a no-op: where the
    file of a path with suffix [.md] holds a document that, as read, has no
    [First created:] and a last line that is not blank, and the standard
    output takes the notice, [process_file] writes the stamped document and
    prints the notice; run again on the same day it only reads the file. *)
Theorem md_second_run_noop today p fs raw :
  path_suffix p = txt ".md" ->
  fs !! p = Some (mk_file (Some raw) true) ->
  encodable (universal_newlines raw) = true ->
  contains fc_key (universal_newlines raw) = false ->
  truthy (strip (last_line (universal_newlines raw))) = true ->
  stdout fs (txt "Updated " ++ path_str p) = true ->
  exists stamped fs1,
    stamped = universal_newlines raw ++ [nl; nl]
              ++ date_section false today (universal_newlines raw)
    /\ process_file false today p fs = (Ok tt, fs1, update_events p stamped)
    /\ fs1 !! p = Some (mk_file (Some stamped) true)
    /\ process_file false today p fs1 = (Ok tt, fs1, [OpenRead p]).
Proof.
  intros Hs Hp He Hfc Hlast Ho.
  set (content := universal_newlines raw) in *.
  set (stamped := content ++ [nl; nl] ++ date_section false today content).
  assert (Hr1 : render false today p content = Some (Some stamped)).
  { rewrite render_md by exact Hs. f_equal. by apply md_fresh_shape. }
  assert (Hr2 : render false today p stamped = Some (Some stamped)).
  { rewrite render_md by exact Hs. f_equal. by apply md_restamped_shape. }
  assert (Hu : universal_newlines stamped = stamped).
  { apply universal_newlines_plain. subst stamped content.
    rewrite !lacks_app, universal_newlines_lacks, date_section_no_return. reflexivity. }
  exists stamped, (set_file p (mk_file (Some stamped) true) fs).
  split; [reflexivity|]. split; [|split; [apply lookup_set_file|]].
  - rewrite process_file_run. unfold process_file_outcome. rewrite Hp.
    fold content. rewrite Hr1.
    unfold str_eqb. rewrite bool_decide_eq_false_2.
    + cbn [negb]. subst stamped. rewrite !encodable_app, He, encodable_date_section.
      cbn [andb negb]. unfold updated_notice. rewrite Ho. reflexivity.
    + intros E. apply (f_equal length) in E. subst stamped.
      rewrite !length_app in E. cbn [length] in E. lia.
  - rewrite process_file_run. unfold process_file_outcome.
    rewrite lookup_set_file, Hu, Hr2. unfold str_eqb.
    rewrite bool_decide_eq_true_2 by reflexivity. reflexivity.
Qed.

Lemma md_second_run_noop_witness :
  let p := at_root (txt "notes.md") in
  let fs := one_file (txt "notes.md") notes in
  path_suffix p = txt ".md"
  /\ fs !! p = Some (mk_file (Some notes) true)
  /\ encodable (universal_newlines notes) = true
  /\ contains fc_key (universal_newlines notes) = false
  /\ truthy (strip (last_line (universal_newlines notes))) = true
  /\ stdout fs (txt "Updated " ++ path_str p) = true
  /\ exists stamped fs1,
       stamped = universal_newlines notes ++ [nl; nl]
                 ++ date_section false sample_day (universal_newlines notes)
       /\ process_file false sample_day p fs = (Ok tt, fs1, update_events p stamped)
       /\ fs1 !! p = Some (mk_file (Some stamped) true)
       /\ process_file false sample_day p fs1 = (Ok tt, fs1, [OpenRead p]).
Proof.
  cbv zeta.
  assert (H1 : path_suffix (at_root (txt "notes.md")) = txt ".md")
    by (vm_compute; reflexivity).
  assert (H2 : one_file (txt "notes.md") notes !! at_root (txt "notes.md")
               = Some (mk_file (Some notes) true))
    by (vm_compute; reflexivity).
  assert (H3 : stdout (one_file (txt "notes.md") notes)
                 (txt "Updated " ++ path_str (at_root (txt "notes.md"))) = true)
    by (vm_compute; reflexivity).
  split; [exact H1|]. split; [exact H2|].
  split; [reflexivity|]. split; [reflexivity|]. split; [reflexivity|].
  split; [exact H3|].
  exact (md_second_run_noop sample_day (at_root (txt "notes.md"))
           (one_file (txt "notes.md") notes) notes
           H1 H2 eq_refl eq_refl eq_refl H3).
Defined.

(** ** The second run on a stamped source file *)

Lemma header_match line1 line2 rest :
  lacks nl line1 = true -> lacks nl line2 = true ->
  match_here false header_pattern
    (block_start ++ line1 ++ nl :: slashes ++ line2 ++ nl :: slashes ++ nl :: rest)
  = Some (rest, []).
Proof.
  intros H1 H2. unfold match_here, header_pattern. cbn [mtch].
  change (txt "//" ++ [nl] ++ txt "//") with block_start.
  rewrite strip_prefix_app.
  rewrite lazy_star_dot_line;
    [|exact H1|intros c t Hc; cbn [app strip_prefix]; rewrite N.eqb_sym, Hc; reflexivity].
  change (nl :: slashes ++ line2 ++ nl :: slashes ++ nl :: rest)
    with (([nl] ++ txt "//") ++ line2 ++ nl :: slashes ++ nl :: rest).
  rewrite strip_prefix_app.
  rewrite lazy_star_dot_line;
    [|exact H2|intros c t Hc; cbn [app strip_prefix]; rewrite N.eqb_sym, Hc; reflexivity].
  change (nl :: slashes ++ nl :: rest) with (([nl] ++ txt "//" ++ [nl]) ++ rest).
  rewrite strip_prefix_app. reflexivity.
Qed.

(** A comment line that is more than the two slashes starts no block. *)
Lemma comment_line_skipped c line s :
  (c =? nl) = false -> lacks 47 (c :: line) = true ->
  contains block_start (slashes ++ (c :: line) ++ s) = contains block_start s.
Proof.
  intros Hc Hl. pose proof Hl as Hl'. rewrite lacks_cons in Hl'.
  apply andb_prop in Hl' as [Hc' _]. apply negb_true_iff in Hc'.
  change (slashes ++ (c :: line) ++ s) with (47 :: 47 :: c :: (line ++ s)).
  rewrite contains_miss.
  2:{ transitivity ((47 =? 47) && ((47 =? 47)
                      && ((nl =? c) && startswith slashes (line ++ s)))); [reflexivity|].
      rewrite (N.eqb_sym nl c), Hc. reflexivity. }
  rewrite contains_miss.
  2:{ transitivity ((47 =? 47)
                      && ((47 =? c) && startswith (nl :: slashes) (line ++ s)));
        [reflexivity|].
      rewrite (N.eqb_sym 47 c), Hc'. reflexivity. }
  change (c :: line ++ s) with ((c :: line) ++ s).
  apply (contains_skip 47 (txt "/" ++ [nl] ++ txt "//")). exact Hl.
Qed.

Lemma stale_no_block today content :
  startswith slashes content = false ->
  contains block_start content = false ->
  contains block_start (stale_lines today ++ content) = false.
Proof.
  intros Hs Hc. unfold stale_lines.
  replace ((txt "//  First created: " ++ CREATION_DATE ++ [nl]
            ++ txt "//  Last updated: " ++ CURRENT_DATE today ++ [nl]
            ++ txt "//" ++ [nl]) ++ content)
    with (slashes ++ (32 :: txt " First created: " ++ CREATION_DATE ++ [nl])
          ++ slashes ++ (32 :: txt " Last updated: " ++ CURRENT_DATE today ++ [nl])
          ++ 47 :: 47 :: nl :: content)
    by (repeat (rewrite <- app_assoc || rewrite <- app_comm_cons); reflexivity).
  rewrite comment_line_skipped by reflexivity.
  rewrite comment_line_skipped.
  2: reflexivity.
  2:{ unfold CURRENT_DATE. rewrite lacks_cons, !lacks_app, lacks_date by reflexivity.
      reflexivity. }
  rewrite contains_miss.
  2:{ transitivity ((47 =? 47) && ((47 =? 47)
                      && ((nl =? nl) && startswith slashes content))); [reflexivity|].
      rewrite Hs. reflexivity. }
  rewrite contains_miss by reflexivity.
  rewrite contains_miss by reflexivity.
  exact Hc.
Qed.

Lemma once_shape today content name :
  new_header false today content name ++ content
  = block_start ++ (txt "  " ++ name) ++ nl :: slashes ++ txt "  rBUM"
    ++ nl :: slashes ++ nl :: stale_lines today ++ content.
Proof.
  rewrite new_header_off; unfold header_block, stale_lines, block_start, slashes.
  repeat (rewrite <- app_assoc || rewrite <- app_comm_cons). reflexivity.
Qed.

Lemma swift_restamped day1 day2 content name :
  no_backslash name = true -> lacks nl name = true ->
  startswith slashes content = false ->
  contains block_start content = false ->
  update_swift_file false day2 (new_header false day1 content name ++ content) name
  = Some (new_header false day2 content name ++ stale_lines day1 ++ content).
Proof.
  intros Hn Hl Hs Hc. rewrite swift_off.
  assert (Hm : re_match header_pattern (new_header false day1 content name ++ content)
               = Some (stale_lines day1 ++ content, [])).
  { rewrite once_shape. apply header_match; [|reflexivity].
    rewrite lacks_app, Hl. reflexivity. }
  rewrite Hm. unfold re_sub.
  rewrite parse_template_plain by (auto using no_backslash_header; lia).
  f_equal. unfold re_match in Hm.
  assert (P : header_pattern
              = Cat (Lit (47 :: txt "/" ++ [nl] ++ txt "//"))
                    (Cat (LazyStar dot)
                       (Cat (Lit ([nl] ++ txt "//"))
                          (Cat (LazyStar dot) (Lit ([nl] ++ txt "//" ++ [nl]))))))
    by reflexivity.
  rewrite P in *.
  rewrite (subx_match _ _ _ _ _ Hm) by (eapply match_lit_shorter, Hm).
  rewrite expand_chars. f_equal.
  apply (subx_lit_none block_start). by apply stale_no_block.
Qed.

(** X17.  The source renderer is not stable on its own output: for a
    file name without backslash and newline and a content that neither
    starts with two slashes nor contains ["//\n//"], the first run puts the
    header in front, and a second run takes the first four lines of that
    header for the old header, so its result is the new header, then the two
    date lines and the closing line of the first header, then the content;
    on the same day this differs from the result of the first run. *)
Theorem swift_second_run_stacks_dates day1 day2 content name :
  no_backslash name = true -> lacks nl name = true ->
  startswith slashes content = false ->
  contains block_start content = false ->
  exists once,
    update_swift_file false day1 content name = Some once
    /\ update_swift_file false day2 once name
       = Some (new_header false day2 once name ++ stale_lines day1 ++ content)
    /\ update_swift_file false day1 once name <> Some once.
Proof.
  intros Hn Hl Hs Hc. exists (new_header false day1 content name ++ content).
  split; [|split].
  - apply swift_prepend. unfold re_match, header_pattern. apply match_lit_fail.
    apply (contains_false_head block_start), Hc.
  - change (new_header false day2 (new_header false day1 content name ++ content) name)
      with (new_header false day2 content name).
    by apply swift_restamped.
  - rewrite swift_restamped by assumption. intros H%(inj Some)%app_inv_head.
    apply (f_equal length) in H. unfold stale_lines in H.
    rewrite !length_app in H. cbn [length] in H. lia.
Qed.

Lemma swift_second_run_stacks_dates_witness :
  no_backslash a_swift = true
  /\ lacks nl a_swift = true
  /\ startswith slashes foo_call = false
  /\ contains block_start foo_call = false
  /\ exists once,
       update_swift_file false sample_day foo_call a_swift = Some once
       /\ update_swift_file false (mk_date 5 November 2026) once a_swift
          = Some (new_header false (mk_date 5 November 2026) once a_swift
                  ++ stale_lines sample_day ++ foo_call)
       /\ update_swift_file false sample_day once a_swift <> Some once.
Proof.
  do 4 (split; [reflexivity|]).
  apply (swift_second_run_stacks_dates sample_day (mk_date 5 November 2026)
           foo_call a_swift); reflexivity.
Defined.

(** ** Dated documents with section headers *)

Lemma dates_match_tail run1 run2 tail :
  lacks nl run1 = true -> lacks nl run2 = true ->
  match_here false dates_pattern
    (fc_key ++ run1 ++ nl :: lu_key ++ run2 ++ nl :: nl :: tail)
  = Some (tail, []).
Proof.
  intros H1 H2. unfold match_here, dates_pattern. cbn [mtch]. fold fc_key lu_key.
  rewrite strip_prefix_app.
  rewrite lazy_star_dot_line;
    [|exact H1|intros c t Hc; cbn [strip_prefix]; rewrite N.eqb_sym, Hc; reflexivity].
  cbn [strip_prefix]. rewrite N.eqb_refl.
  apply lazy_star_now. rewrite strip_prefix_app.
  rewrite lazy_star_dot_line;
    [|exact H2|intros c t Hc; cbn [strip_prefix]; rewrite N.eqb_sym, Hc; reflexivity].
  cbn [app strip_prefix]. rewrite N.eqb_refl.
  replace (strip_prefix (txt "Update count:") (nl :: tail)) with (@None (str))
    by reflexivity.
  rewrite N.eqb_refl. reflexivity.
Qed.

Lemma dated_sub today c head tail :
  contains fc_key head = false -> contains fc_key tail = false ->
  re_sub dates_pattern [] (head ++ [nl; nl] ++ date_section false today c ++ tail)
  = Some (head ++ [nl; nl] ++ tail).
Proof.
  intros Hh Ht. unfold re_sub. cbn [length parse_template]. f_equal.
  destruct (date_section_block today c) as (run1 & run2 & H1 & H2 & ->).
  pose proof (dates_match_tail run1 run2 tail H1 H2) as Hm.
  assert (Hs : subx dates_pattern [] tail 0 = tail)
    by (unfold dates_pattern; fold fc_key; by apply subx_lit_none).
  assert (P : dates_pattern
              = Cat (Lit (70 :: txt "irst created:"))
                    (Cat (LazyStar dot)
                     (Cat (Lit [nl])
                      (Cat (LazyStar dot)
                       (Cat (Lit (txt "Last updated:"))
                        (Cat (LazyStar dot)
                         (Cat (Lit [nl])
                          (Cat (Opt (Group 1 (Cat (Lit (txt "Update count:"))
                                              (Cat (LazyStar dot) (Lit [nl])))))
                               (Opt (Lit [nl])))))))))) by reflexivity.
  rewrite P in *.
  assert (E : (fc_key ++ run1 ++ nl :: lu_key ++ run2 ++ [nl; nl]) ++ tail
              = 70 :: (txt "irst created:" ++ run1 ++ nl :: lu_key ++ run2 ++ nl :: nl :: tail)).
  { repeat (rewrite <- app_assoc || rewrite <- app_comm_cons). reflexivity. }
  assert (E' : fc_key ++ run1 ++ nl :: lu_key ++ run2 ++ nl :: nl :: tail
              = 70 :: (txt "irst created:" ++ run1 ++ nl :: lu_key ++ run2 ++ nl :: nl :: tail))
    by reflexivity.
  rewrite E' in Hm. rewrite E. rewrite (app_assoc head).
  rewrite subx_lit_skip; [|reflexivity|].
  - rewrite (subx_match _ _ _ _ _ Hm).
    + cbn [expand List.map concat app]. rewrite Hs, <- app_assoc. reflexivity.
    + cbn [length]. rewrite !length_app. cbn [length]. rewrite !length_app. cbn [length]. lia.
  - change (70 :: txt "irst created:") with fc_key.
    change (head ++ [nl; nl]) with (head ++ nl :: [nl]).
    change fc_key with (70 :: txt "irst created:") in *.
    rewrite contains_line by reflexivity. rewrite Hh. reflexivity.
Qed.

Lemma dated_lines today c head tail :
  split_lines (head ++ [nl; nl] ++ date_section false today c ++ tail)
  = split_lines head
    ++ [] :: fc_line :: (split_lines (lu_line today) ++ [] :: split_lines tail).
Proof.
  rewrite date_section_shape.
  replace (head ++ [nl; nl] ++ (fc_line ++ nl :: lu_line today ++ [nl; nl]) ++ tail)
    with (head ++ nl :: ([] ++ nl :: (fc_line ++ nl :: (lu_line today ++ nl :: ([] ++ nl :: tail)))))
    by (repeat (rewrite <- app_assoc || rewrite <- app_comm_cons); reflexivity).
  rewrite !split_lines_app_nl. reflexivity.
Qed.

Lemma no_title_lines s :
  no_title_line s = true ->
  Forall (fun l => startswith title_key l = false) (split_lines s).
Proof.
  unfold no_title_line. intros H. apply Forall_forall. intros l Hl.
  rewrite forallb_forall in H. apply negb_true_iff, H. by apply list_elem_of_In.
Qed.

Lemma no_title_dated today tail :
  no_title_line tail = true ->
  Forall (fun l => startswith title_key l = false)
         ([] :: fc_line :: (split_lines (lu_line today) ++ [] :: split_lines tail)).
Proof.
  intros Ht. constructor; [reflexivity|]. constructor; [reflexivity|].
  apply Forall_app. split.
  - apply lines_without. apply (contains_lacks 35); [reflexivity|].
    unfold lu_line, CURRENT_DATE. repeat (rewrite lacks_app || rewrite lacks_cons).
    rewrite lacks_date by reflexivity. reflexivity.
  - constructor; [reflexivity | by apply no_title_lines].
Qed.

Lemma md_header_dated today c head tail :
  contains fc_key head = false ->
  truthy (strip (last_line head)) = true ->
  no_title_line tail = true ->
  md_header (head ++ [nl; nl] ++ date_section false today c ++ tail)
  = head ++ [nl; nl].
Proof.
  intros Hfc Hlast Ht. unfold md_header. rewrite dated_lines.
  pose proof (lines_without _ _ Hfc) as Hlines.
  unfold last_line in Hlast.
  destruct (last (split_lines head)) as [l|] eqn:E;
    [|by apply last_None in E; destruct (split_lines_cons head) as (? & ? & ?); congruence].
  apply last_Some in E as [ls E]. cbn [default] in Hlast.
  rewrite (find_title_app _ _ _ (no_title_dated today tail Ht)).
  pose proof (find_title_bound (split_lines head) 0) as Hb.
  assert (Hc : truthy head = true).
  { destruct head; [|reflexivity]. cbn in E.
    destruct ls as [|? [|? ?]]; cbn in E; try discriminate. injection E as <-.
    cbn in Hlast. discriminate. }
  rewrite E in Hb, Hlines |- *.
  generalize dependent (find_title (ls ++ [l]) 0). intros t Hb.
  rewrite length_app in Hb. cbn [length Nat.add] in Hb.
  set (R := split_lines (lu_line today) ++ [] :: split_lines tail).
  assert (Hd : scan_description (drop t ((ls ++ [l]) ++ [] :: fc_line :: R)) t t
               = length (ls ++ [l])).
  { destruct (decide (t <= length ls)%nat) as [Hle|Hgt].
    - rewrite <- app_assoc, drop_app_le, app_assoc by exact Hle.
      rewrite scan_stops;
        [|rewrite <- drop_app_le by exact Hle; by apply Forall_drop|exact Hlast].
      rewrite !length_app, length_drop. cbn [length]. lia.
    - assert (t = length (ls ++ [l])) as -> by (rewrite length_app; cbn [length]; lia).
      rewrite drop_app_length. cbn [scan_description]. fold fc_key.
      replace (truthy (strip [])) with false by reflexivity.
      replace (truthy (strip fc_line)) with true by (vm_compute; reflexivity).
      replace (startswith fc_key fc_line) with true by (vm_compute; reflexivity).
      reflexivity. }
  rewrite Hd, take_app_length, <- E, join_split, Hc. reflexivity.
Qed.

Lemma greedy_star_some {A} p s (k : str -> option A) :
  (forall t, is_Some (k t)) -> is_Some (greedy_star p s k).
Proof.
  intros Hk. induction s as [|c s IH]; cbn [greedy_star]; [apply Hk|].
  destruct (p c); [|apply Hk]. destruct IH as [x ->]. by eexists.
Qed.

Lemma section_found pre c post :
  contains section_key pre = false -> isspace c = true ->
  exists m cs,
    re_search section_pattern (pre ++ section_key ++ c :: post)
    = Some (length pre, m, cs).
Proof.
  intros Hpre Hc. unfold re_search, section_pattern.
  change ([nl] ++ txt "##") with (nl :: txt "##").
  change (section_key ++ c :: post) with (nl :: (txt "##" ++ c :: post)).
  rewrite search_lit_skip; [|reflexivity|exact Hpre].
  cbn [re_search_from Nat.add]. unfold re_match, match_here. cbn [mtch].
  change (nl :: (txt "##" ++ c :: post)) with ((nl :: txt "##") ++ c :: post).
  rewrite strip_prefix_app, Hc. cbn [andb].
  match goal with
  | |- context [greedy_star isspace post ?k] =>
      destruct (greedy_star_some isspace post k) as [[rest cs] ->]; [by eexists|]
  end.
  by eexists _, _.
Qed.

(** X15.  A document stamped in the layout of the tool - title and
    description, a blank line, the date section, then a body without a
    further date line - is refreshed in place when the body has no
    ["\n##"]: the text above and the body stay, the date section carries
    the day of the run. *)
Theorem dated_document_refreshed day1 day2 c head tail name :
  contains fc_key head = false ->
  truthy (strip (last_line head)) = true ->
  no_title_line tail = true ->
  contains fc_key tail = false ->
  contains section_key tail = false ->
  update_markdown_file false day2
    (head ++ [nl; nl] ++ date_section false day1 c ++ tail) name
  = Some (head ++ [nl; nl] ++ date_section false day2 c ++ tail).
Proof.
  intros Hh Hlast Hnt Ht Hs. rewrite md_off.
  rewrite (md_header_dated day1 c head tail Hh Hlast Hnt), (dated_sub day1 c head tail Hh Ht).
  rewrite (app_assoc head), drop_app_length.
  unfold re_search, section_pattern. change ([nl] ++ txt "##") with section_key.
  rewrite (search_lit_none section_key _ _ _ Hs).
  rewrite <- !app_assoc. rewrite !date_section_shape. reflexivity.
Qed.

(** X16.  Where the body after the date section has a later section
    header, the search for ["\n##\s+"] starts behind the old date section,
    so it finds that later header: the date section leaves its place under
    the description and is put in front of the first section header that
    follows a newline of the body. *)
Theorem dates_move_to_later_section day1 day2 c head body sp rest name :
  contains fc_key head = false ->
  truthy (strip (last_line head)) = true ->
  no_title_line (body ++ section_key ++ sp :: rest) = true ->
  contains fc_key (body ++ section_key ++ sp :: rest) = false ->
  contains section_key body = false ->
  isspace sp = true ->
  update_markdown_file false day2
    (head ++ [nl; nl] ++ date_section false day1 c ++ body ++ section_key ++ sp :: rest) name
  = Some (head ++ [nl; nl] ++ body ++ date_section false day2 c ++ section_key ++ sp :: rest).
Proof.
  intros Hh Hlast Hnt Ht Hs Hsp. rewrite md_off.
  rewrite (md_header_dated day1 c head _ Hh Hlast Hnt), (dated_sub day1 c head _ Hh Ht).
  rewrite (app_assoc head), drop_app_length.
  destruct (section_found body sp rest Hs Hsp) as (m & cs & ->).
  rewrite <- length_app, (app_assoc (head ++ [nl; nl]) body).
  rewrite take_app_length, drop_app_length.
  rewrite <- !app_assoc. rewrite !date_section_shape. reflexivity.
Qed.

Lemma dated_document_refreshed_witness :
  contains fc_key titled_example = false
  /\ truthy (strip (last_line titled_example)) = true
  /\ no_title_line one_section = true
  /\ contains fc_key one_section = false
  /\ contains section_key one_section = false
  /\ update_markdown_file false (mk_date 5 November 2026)
       (titled_example ++ [nl; nl] ++ date_section false sample_day [] ++ one_section)
       a_swift
     = Some (titled_example ++ [nl; nl]
             ++ date_section false (mk_date 5 November 2026) [] ++ one_section).
Proof.
  do 5 (split; [reflexivity|]).
  apply (dated_document_refreshed sample_day (mk_date 5 November 2026) []
           titled_example one_section a_swift); reflexivity.
Defined.

Lemma dates_move_to_later_section_witness :
  contains fc_key titled_example = false
  /\ truthy (strip (last_line titled_example)) = true
  /\ no_title_line (first_section ++ section_key ++ 32 :: later_section) = true
  /\ contains fc_key (first_section ++ section_key ++ 32 :: later_section) = false
  /\ contains section_key first_section = false
  /\ isspace 32 = true
  /\ update_markdown_file false (mk_date 5 November 2026)
       (titled_example ++ [nl; nl] ++ date_section false sample_day []
        ++ first_section ++ section_key ++ 32 :: later_section)
       a_swift
     = Some (titled_example ++ [nl; nl] ++ first_section
             ++ date_section false (mk_date 5 November 2026) []
             ++ section_key ++ 32 :: later_section).
Proof.
  do 6 (split; [reflexivity|]).
  apply (dates_move_to_later_section sample_day (mk_date 5 November 2026) []
           titled_example first_section 32 later_section a_swift); reflexivity.
Defined.

(** ** The manifest inspection *)

Lemma greedy_star_over {A} p run s (k : str -> option A) x :
  forallb p run = true ->
  greedy_star p s k = Some x ->
  greedy_star p (run ++ s) k = Some x.
Proof.
  intros Hrun H. induction run as [|c run IH]; [exact H|].
  cbn [forallb] in Hrun. apply andb_prop in Hrun as [Hc Hrun].
  cbn [app greedy_star]. rewrite Hc, (IH Hrun). reflexivity.
Qed.

Lemma greedy_star_fail {A} p s (k : str -> option A) :
  (forall b, b `suffix_of` s -> k b = None) -> greedy_star p s k = None.
Proof.
  induction s as [|c s IH]; intros H; cbn [greedy_star].
  - apply H. reflexivity.
  - rewrite IH by (intros b Hb; apply H; by apply suffix_cons_r).
    rewrite (H (c :: s)) by reflexivity. destruct (p c); reflexivity.
Qed.

(** The continuation of the group: a semicolon, then the end of the
    match. *)
Lemma semicolon_needed b post :
  lacks 59 post = true -> b `suffix_of` post -> strip_prefix (txt ";") b = None.
Proof.
  intros Hp [pre ->]. rewrite lacks_app in Hp. apply andb_prop in Hp as [_ Hb].
  destruct b as [|c b]; [reflexivity|]. rewrite lacks_cons in Hb.
  apply andb_prop in Hb as [Hc _]. apply negb_true_iff in Hc.
  change (txt ";") with [59]. cbn [strip_prefix].
  rewrite N.eqb_sym, Hc. reflexivity.
Qed.

Lemma path_match mid post :
  lacks nl mid = true -> lacks 59 post = true ->
  re_match path_pattern (path_key ++ mid ++ 59 :: post) = Some (post, [(1%nat, mid)]).
Proof.
  intros Hm Hp. unfold re_match, match_here, path_pattern, Star. cbn [mtch].
  rewrite strip_prefix_app.
  assert (Hdot : forallb dot mid = true).
  { unfold lacks in Hm. eapply forallb_weaken; [|exact Hm]. intros c Hc. exact Hc. }
  destruct mid as [|c mid].
  - cbn [app]. cbn [dot negb]. replace (dot 59) with true by reflexivity.
    rewrite greedy_star_fail.
    + cbn [length Nat.sub take]. rewrite Nat.sub_diag. reflexivity.
    + intros b Hb. rewrite (semicolon_needed b post Hp Hb). reflexivity.
  - cbn [forallb] in Hdot. apply andb_prop in Hdot as [Hc Hdot].
    cbn [app]. rewrite Hc.
    erewrite greedy_star_over; [reflexivity | exact Hdot |].
    cbn [greedy_star]. replace (dot 59) with true by reflexivity.
    rewrite greedy_star_fail
      by (intros b Hb; rewrite (semicolon_needed b post Hp Hb); reflexivity).
    change (txt ";") with [59]. cbn [mtch strip_prefix]. rewrite N.eqb_refl. cbn [andb].
    do 3 f_equal.
    replace (length (c :: mid ++ 59%N :: post) - length (59%N :: post))%nat
      with (length (c :: mid)) by (cbn [length]; rewrite length_app; cbn [length]; lia).
    change (c :: mid ++ 59 :: post) with ((c :: mid) ++ 59 :: post).
    rewrite take_app_length. reflexivity.
Qed.

(** X13.  In a manifest line the captured reference runs from the first
    [path = ] to the last semicolon of the line: the star is greedy, so
    where the line goes on with further settings the reference takes them
    in, up to the brace before the last semicolon. *)
Theorem reference_runs_to_last_semicolon pre mid post :
  contains path_key pre = false ->
  lacks nl mid = true -> lacks 59 post = true ->
  reference_of (pre ++ path_key ++ mid ++ 59 :: post) = Some mid.
Proof.
  intros Hpre Hm Hp. unfold reference_of, re_search.
  pose proof (path_match mid post Hm Hp) as H.
  assert (P : path_pattern
              = Cat (Lit (112 :: txt "ath = ")) (Cat (Group 1 (Star dot)) (Lit (txt ";"))))
    by reflexivity.
  assert (E : path_key ++ mid ++ 59 :: post = 112 :: (txt "ath = " ++ mid ++ 59 :: post))
    by reflexivity.
  rewrite E in *. rewrite P in *.
  rewrite search_lit_skip by (reflexivity || assumption).
  cbn [re_search_from]. rewrite H. reflexivity.
Qed.

Lemma reference_runs_to_last_semicolon_witness :
  contains path_key manifest_lead = false
  /\ lacks nl manifest_reference = true
  /\ lacks 59 [nl] = true
  /\ reference_of (manifest_lead ++ path_key ++ manifest_reference ++ 59 :: [nl])
     = Some manifest_reference.
Proof.
  split; [reflexivity|]. split; [reflexivity|]. split; [reflexivity|].
  apply (reference_runs_to_last_semicolon manifest_lead manifest_reference [nl]);
    reflexivity.
Defined.

Lemma str_ltb_asym a b : str_ltb a b = true -> str_ltb b a = false.
Proof.
  revert b. induction a as [|x a IH]; intros [|y b]; cbn [str_ltb]; try done.
  intros H. apply orb_prop in H as [H|H].
  - apply N.ltb_lt in H.
    replace (y <? x) with false by (symmetry; apply N.ltb_ge; lia).
    replace (y =? x) with false by (symmetry; apply N.eqb_neq; lia). reflexivity.
  - apply andb_prop in H as [->%N.eqb_eq H]. rewrite N.ltb_irrefl, N.eqb_refl.
    cbn [orb andb]. by apply IH.
Qed.

Lemma str_le_trans a b c : str_le a b -> str_le b c -> str_le a c.
Proof.
  unfold str_le. revert b c. induction a as [|x a IH]; intros [|y b] [|z c];
    cbn [str_ltb]; try done.
  intros H1 H2. apply orb_false_elim in H1 as [H1 H1']. apply orb_false_elim in H2 as [H2 H2'].
  apply N.ltb_ge in H1, H2. apply orb_false_intro; [apply N.ltb_ge; lia|].
  destruct (N.eqb_spec z x) as [->|]; [|reflexivity]. cbn [andb].
  assert (y = x) as -> by lia. rewrite N.eqb_refl in *. cbn [andb] in *. by eapply IH.
Qed.

Lemma insert_sorted_perm x l : insert_sorted x l ≡ₚ x :: l.
Proof.
  induction l as [|y l IH]; [reflexivity|]. cbn [insert_sorted].
  destruct (str_ltb y x); [|reflexivity]. rewrite IH. apply Permutation_swap.
Qed.

Lemma sorted_perm l : sorted l ≡ₚ l.
Proof.
  induction l as [|x l IH]; [reflexivity|]. cbn [sorted foldr].
  rewrite insert_sorted_perm. by f_equiv.
Qed.

Lemma insert_sorted_sorted x l :
  StronglySorted str_le l -> StronglySorted str_le (insert_sorted x l).
Proof.
  induction 1 as [|y l Hs IH Hy]; cbn [insert_sorted]; [repeat constructor|].
  destruct (str_ltb y x) eqn:E.
  - constructor; [exact IH|]. rewrite insert_sorted_perm. constructor; [|exact Hy].
    by apply str_ltb_asym.
  - constructor; [by constructor|]. constructor; [exact E|].
    eapply Forall_impl; [exact Hy|]. intros z Hz. by eapply str_le_trans.
Qed.

Lemma sorted_sorted l : StronglySorted str_le (sorted l).
Proof.
  induction l as [|x l IH]; [constructor|]. cbn [sorted foldr].
  by apply insert_sorted_sorted.
Qed.

Lemma referenced_fold (lines : list str) (acc : gset (str)) (x : str) :
  x ∈ fold_left add_reference lines acc
  <-> x ∈ acc \/ exists line, line ∈ lines /\ reference_of line = Some x.
Proof.
  revert acc. induction lines as [|l lines IH]; intros acc; cbn [fold_left].
  - split; [by left|]. intros [H|(line & H & _)]; [exact H|]. by apply elem_of_nil in H.
  - rewrite IH. unfold add_reference. split.
    + intros [H|(line & Hin & Hr)].
      * destruct (reference_of l) as [r|] eqn:E; [|by left].
        apply elem_of_union in H as [->%elem_of_singleton|H]; [|by left].
        right. exists l. split; [left | exact E].
      * right. exists line. split; [by right | exact Hr].
    + intros [H|(line & Hin & Hr)].
      * left. destruct (reference_of l); [|exact H]. apply elem_of_union. by right.
      * apply elem_of_cons in Hin as [->|Hin].
        -- left. rewrite Hr. apply elem_of_union. left. by apply elem_of_singleton.
        -- right. by exists line.
Qed.

Lemma add_sources_spec (root files : list str) (acc : gset (str)) (x : str) :
  x ∈ add_sources root files acc
  <-> x ∈ acc \/ exists file, file ∈ files /\ is_source file = true /\ x = relpath root file.
Proof.
  unfold add_sources. revert acc. induction files as [|f files IH]; intros acc; cbn [fold_left].
  - split; [by left|]. intros [H|(file & H & _)]; [exact H|]. by apply elem_of_nil in H.
  - rewrite IH. split.
    + intros [H|(file & Hin & Hs & Hx)].
      * destruct (is_source f) eqn:E; [|by left].
        apply elem_of_union in H as [->%elem_of_singleton|H]; [|by left].
        right. exists f. split; [left | by split].
      * right. exists file. split; [by right | by split].
    + intros [H|(file & Hin & Hs & Hx)].
      * left. destruct (is_source f); [|exact H]. apply elem_of_union. by right.
      * apply elem_of_cons in Hin as [->|Hin].
        -- left. rewrite Hs. apply elem_of_union. left. by apply elem_of_singleton.
        -- right. by exists file.
Qed.

Lemma source_fold (walk : list (list str * list str))
    (acc : gset (str)) (x : str) :
  x ∈ fold_left (fun acc (entry : list str * list str) =>
                   add_sources entry.1 entry.2 acc) walk acc
  <-> x ∈ acc \/ exists root files file,
        (root, files) ∈ walk /\ file ∈ files /\ is_source file = true
        /\ x = relpath root file.
Proof.
  revert acc. induction walk as [|[root files] walk IH]; intros acc; cbn [fold_left].
  - split; [by left|]. intros [H|(? & ? & ? & H & _)]; [exact H|]. by apply elem_of_nil in H.
  - rewrite IH, add_sources_spec. cbn [fst snd]. split.
    + intros [[H|(file & Hin & Hs & Hx)]|(r & fs & file & Hw & Hin & Hs & Hx)].
      * by left.
      * right. exists root, files, file. split; [left | by repeat split].
      * right. exists r, fs, file. split; [by right | by repeat split].
    + intros [H|(r & fs & file & Hw & Hin & Hs & Hx)].
      * left. by left.
      * apply elem_of_cons in Hw as [[= -> ->]|Hw].
        -- left. right. by exists file.
        -- right. by exists r, fs, file.
Qed.

(** X14.  What the inspection prints: a text is one of the printed lines
    exactly when it is the relative path of a file of the walk with one of
    the five source extensions and no line of the manifest captures it as
    its reference; the lines are in ascending order and none is printed
    twice. *)
Theorem report_lists_unreferenced (walk : list (list str * list str))
    (manifest : str) :
  (forall x : str,
      x ∈ report_lines walk manifest
      <-> (exists root files file,
              (root, files) ∈ walk /\ file ∈ files /\ is_source file = true
              /\ x = relpath root file)
          /\ ~ (exists line, line ∈ file_lines manifest /\ reference_of line = Some x))
  /\ StronglySorted str_le (report_lines walk manifest)
  /\ NoDup (report_lines walk manifest).
Proof.
  unfold report_lines. split; [|split].
  - intros x. rewrite sorted_perm, elem_of_elements.
    unfold unreferenced_files, source_files, referenced_files.
    rewrite elem_of_difference, source_fold, referenced_fold.
    split.
    + intros [[H|H] Hn]; [by apply elem_of_empty in H|].
      split; [exact H|]. intros Hr. apply Hn. by right.
    + intros [H Hn]. split; [by right|].
      intros [Hr|Hr]; [by apply elem_of_empty in Hr | by apply Hn].
  - apply sorted_sorted.
  - rewrite sorted_perm. apply NoDup_elements.
Qed.

(** ** The counter flag *)













Section Keeps.

Variables (a : N) (k : str) (r : regex).
Variables (h : N) (block : str).
Variables (q : N) (key : str).
Hypothesis key_h : lacks h (q :: key) = true.
Hypothesis key_nl : lacks nl (q :: key) = true.
Hypothesis key_block : contains (q :: key) block = false.

Local Abbreviation R := (Cat (Lit (a :: k)) r).
Local Abbreviation tpl := (List.map TChar (h :: block ++ [nl])).



End Keeps.








(** Why the documents of the amended statement have no date block: the
    removal of a date block can put a counter line together from its two
    sides. *)
Lemma removal_joins_counter_line :
  contains counter_key joined_doc = false
  /\ update_markdown_file false sample_day joined_doc a_swift = Some joined_result
  /\ contains counter_key joined_result = true.
Proof.
  split; [vm_compute; reflexivity|]. split; [vm_compute; reflexivity|].
  vm_compute. reflexivity.
Qed.

(** And why the file names of the amended statement have no backslash:
    [re.sub] expands the escapes of the header it is given. *)
Lemma escape_builds_counter_line :
  contains counter_key octal_name = false
  /\ contains counter_key headed_example = false
  /\ update_swift_file false sample_day headed_example octal_name = Some octal_result
  /\ contains counter_key octal_result = true.
Proof.
  split; [vm_compute; reflexivity|]. split; [vm_compute; reflexivity|].
  split; [vm_compute; reflexivity|]. vm_compute. reflexivity.
Qed.


